(** * LoopHealth_AI: hospital search engine and conversational agent

    A shallow embedding of [src/rag_engine.py] (class [HospitalRAG]) and
    [src/agent.py] (classes [ConversationMemory] and [LoopAIAgent]),
    followed by the properties of the specification that concern them.

    Conventions of the embedding.
    - A Python [str] is a [string]; only the ASCII part of [str.lower],
      [str.strip] and [str.capitalize] is modelled.  A backslash in a
      literal below is one backslash character.
    - A Python [float] similarity score is a rational [Q]; the code only
      compares scores, and the Euclidean norm is a parameter.
    - A Python [int] argument that is used as a slice bound is a [Z], with
      the slice semantics for negative bounds written out.
    - Code that can raise returns a [result]; [try]/[except] is
      [try_except].
    - [print] calls are not modelled. *)

From Stdlib Require Import List String Ascii Bool Arith ZArith QArith Lia.
From Stdlib Require Import Permutation Sorted DecimalString.
Import ListNotations.

Local Open Scope list_scope.
Local Open Scope string_scope.
Local Open Scope nat_scope.

(** ** Python built-ins used by the two modules *)

Module Py.

Inductive exn : Type :=
| IndexError
| KeyError
| ValueError
| AttributeError
| RuntimeError (msg : string).

Inductive result (A : Type) : Type :=
| Ok (a : A)
| Raise (e : exn).

Arguments Ok {A} a.
Arguments Raise {A} e.

Definition bind {A B} (c : result A) (f : A -> result B) : result B :=
  match c with
  | Ok a => f a
  | Raise e => Raise e
  end.

(** [try: body / except: handler] with a handler that ignores the error. *)
Definition try_except {A} (body : result A) (handler : result A) : result A :=
  match body with
  | Ok a => Ok a
  | Raise _ => handler
  end.

(** [l[i]] for a non-negative index. *)
Definition getitem {A} (l : list A) (i : nat) : result A :=
  match nth_error l i with
  | Some a => Ok a
  | None => Raise IndexError
  end.

(** [l[:k]] *)
Definition slice_to {A} (k : Z) (l : list A) : list A :=
  if (0 <=? k)%Z then firstn (Z.to_nat k) l
  else firstn (List.length l - Z.to_nat (- k)) l.

(** [l[i:]] *)
Definition slice_from {A} (i : Z) (l : list A) : list A :=
  if (0 <=? i)%Z then skipn (Z.to_nat i) l
  else skipn (List.length l - Z.to_nat (- i)) l.

(** Truth value of a list. *)
Definition truthy {A} (l : list A) : bool :=
  match l with [] => false | _ :: _ => true end.

(** [given o] is the string of an [Optional[str]] that is truthy (neither
    [None] nor empty). *)
Definition given (o : option string) : option string :=
  match o with
  | Some (String c s) => Some (String c s)
  | _ => None
  end.

Definition is_upper (c : ascii) : bool :=
  (65 <=? nat_of_ascii c) && (nat_of_ascii c <=? 90).

Definition is_lower (c : ascii) : bool :=
  (97 <=? nat_of_ascii c) && (nat_of_ascii c <=? 122).

Definition is_digit (c : ascii) : bool :=
  (48 <=? nat_of_ascii c) && (nat_of_ascii c <=? 57).

Definition is_space (c : ascii) : bool :=
  let n := nat_of_ascii c in
  (n =? 32) || ((9 <=? n) && (n <=? 13)) || ((28 <=? n) && (n <=? 31)).

Definition lower_ascii (c : ascii) : ascii :=
  if is_upper c then ascii_of_nat (nat_of_ascii c + 32) else c.

Definition upper_ascii (c : ascii) : ascii :=
  if is_lower c then ascii_of_nat (nat_of_ascii c - 32) else c.

(** [s.lower()] *)
Fixpoint lower (s : string) : string :=
  match s with
  | EmptyString => EmptyString
  | String c s' => String (lower_ascii c) (lower s')
  end.

(** [s.capitalize()] *)
Definition capitalize (s : string) : string :=
  match s with
  | EmptyString => EmptyString
  | String c s' => String (upper_ascii c) (lower s')
  end.

(** [s.startswith(p)] *)
Fixpoint startswith (s p : string) : bool :=
  match p, s with
  | EmptyString, _ => true
  | String a p', String b s' => Ascii.eqb a b && startswith s' p'
  | String _ _, EmptyString => false
  end.

(** [sub in s] on strings. *)
Fixpoint contains (sub s : string) : bool :=
  startswith s sub
  || match s with
     | EmptyString => false
     | String _ s' => contains sub s'
     end.

(** [any(w in s for w in ws)] *)
Definition any_in (ws : list string) (s : string) : bool :=
  existsb (fun w => contains w s) ws.

(** [x in l] on a list of strings. *)
Definition str_in (x : string) (l : list string) : bool :=
  existsb (String.eqb x) l.

Fixpoint lstrip (s : string) : string :=
  match s with
  | EmptyString => EmptyString
  | String c s' => if is_space c then lstrip s' else s
  end.

Fixpoint rstrip (s : string) : string :=
  match s with
  | EmptyString => EmptyString
  | String c s' =>
      match rstrip s' with
      | EmptyString => if is_space c then EmptyString else String c EmptyString
      | r => String c r
      end
  end.

(** [s.strip()] *)
Definition strip (s : string) : string := rstrip (lstrip s).

(** [s.replace(old, new)] for a non-empty [old]: [skip] counts the characters
    of an occurrence of [old] still to be dropped. *)
Fixpoint replace_from (old new : string) (skip : nat) (s : string) : string :=
  match s with
  | EmptyString => EmptyString
  | String c s' =>
      match skip with
      | S n => replace_from old new n s'
      | O =>
          if startswith s old
          then new ++ replace_from old new (String.length old - 1) s'
          else String c (replace_from old new 0 s')
      end
  end.

Definition replace (old new s : string) : string := replace_from old new 0 s.

(** [sep.join(l)] *)
Definition join (sep : string) (l : list string) : string := String.concat sep l.

(** [str(n)] inside an f-string, for a length. *)
Definition str_of_nat (n : nat) : string :=
  NilZero.string_of_uint (Nat.to_uint n).

End Py.

Import Py.

Notation "x <- c ;; k" := (bind c (fun x => k))
  (at level 61, c at next level, right associativity).

(** ** Data model *)

(** A search result, the dict built by [search_hospitals] and by the exact
    pass of [search_by_name_and_city] (which sets no ["full_text"]). *)
Record Hospital : Type := {
  name : string;
  address : string;
  city : string;
  full_text : option string;
  score : Q;
  relevance : string
}.

(** A row of [hospitals_df]: columns 'hospital name', 'address', 'city'. *)
Record Row : Type := {
  hospital_name : string;
  row_address : string;
  row_city : string
}.

(** [hospitals_df].  [str_columns] tells whether the 'hospital name' and
    'city' columns are text columns: the [.str] accessor of pandas raises
    [AttributeError] on any other column. *)
Record DataFrame : Type := {
  rows : list Row;
  str_columns : bool
}.

(** An entry of [self.metadata]. *)
Record Meta : Type := {
  meta_name : string;
  meta_city : string;
  meta_address : string;
  meta_index : nat
}.

(** The fitted [TfidfVectorizer]: [transform] maps a query to its weight
    vector over the fitted vocabulary, or raises. *)
Record Vectorizer : Type := {
  transform : string -> result (list Q)
}.

Record HospitalRAG : Type := {
  hospitals_df : option DataFrame;
  documents : list string;
  metadata : list Meta;
  vectorizer : option Vectorizer;
  tfidf_matrix : option (list (list Q))
}.

(** An entry of [ConversationMemory.history]. *)
Record Turn : Type := {
  user : string;
  assistant : string;
  hospitals : list Hospital
}.

(** [ConversationMemory.context]: a dict with the three keys below; [None]
    is an absent key. *)
Record Context : Type := {
  last_cities : option (list string);
  last_hospital_names : option (list string);
  last_intent : option string
}.

Record ConversationMemory : Type := {
  history : list Turn;
  max_history : Z;
  context : Context
}.

(** The dict returned by [_extract_intent]. *)
Record Intent : Type := {
  intent_type : string;
  intent_city : option string;
  intent_hospital_name : option string;
  intent_count : Z
}.

Record LoopAIAgent : Type := {
  rag_engine : HospitalRAG;
  memory : ConversationMemory;
  session_started : bool;
  system_prompt : string;
  greeting_message : string
}.

(** ** Reference behaviours of the collaborators

    The program is parameterised below by the iteration order of a Python
    [set], by [numpy.argsort], by the Euclidean norm and by the language
    model.  The definitions here are particular behaviours, used to run the
    program on concrete inputs. *)

(** A set order: the distinct elements, each at the place of its last
    occurrence. *)
Definition distinct_order (l : list string) : list string :=
  nodup string_dec l.

Fixpoint insert_index (s : list Q) (i : nat) (sorted : list nat) : list nat :=
  match sorted with
  | [] => [i]
  | j :: rest =>
      if Qle_bool (nth i s 0%Q) (nth j s 0%Q) then i :: sorted
      else j :: insert_index s i rest
  end.

(** An ascending, stable argsort: insertion sort, the algorithm of numpy's
    default sort on short arrays.  Indices are inserted from the last to
    the first, each before the entries that are not smaller. *)
Definition argsort_insertion (s : list Q) : list nat :=
  fold_right (insert_index s) [] (seq 0 (List.length s)).

(** The dot product of two rows. *)
Definition dot (u v : list Q) : Q :=
  fold_right Qplus 0%Q (map (fun p => (fst p * snd p)%Q) (combine u v)).

(** A rational Euclidean norm, exact on vectors whose squared norm is the
    square of a rational. *)
Definition l2norm_floor (v : list Q) : Q :=
  let q := Qred (dot v v) in
  (Z.sqrt (Qnum q * Zpos (Qden q)) # Qden q)%Q.

(** A language model that raises on every call. *)
Definition chat_down (attempt : nat) (system prompt : string) : result string :=
  Raise (RuntimeError "connection refused").

(** A language model whose every answer is too short to be accepted. *)
Definition chat_terse (attempt : nat) (system prompt : string) : result string :=
  Ok "Yes.".

(** ** The program *)

Section Program.

(** [list_set l] is [list(set(l))]: the distinct elements of [l] in the
    iteration order of the set. *)
Variable list_set : list string -> list string.

(** [argsort s] is [np.argsort(s)]. *)
Variable argsort : list Q -> list nat.

(** The Euclidean norm of a row, as [sklearn.preprocessing.normalize]
    computes it. *)
Variable l2norm : list Q -> Q.

(** [chat attempt system prompt] is the text at
    [ollama.chat(...)['message']['content']] for the call made by attempt
    number [attempt], or the exception raised on the way to it. *)
Variable chat : nat -> string -> string -> result string.

(** *** [ConversationMemory] *)

Definition new_memory (max_history : Z) : ConversationMemory :=
  {| history := []; max_history := max_history;
     context := {| last_cities := None; last_hospital_names := None;
                   last_intent := None |} |}.

Definition set_last_intent (v : string) (ctx : Context) : Context :=
  {| last_cities := last_cities ctx;
     last_hospital_names := last_hospital_names ctx;
     last_intent := Some v |}.

Definition _update_context (query : string) (hs : list Hospital)
    (ctx : Context) : Context :=
  let ctx :=
    if truthy hs then
      {| last_cities := Some (list_set (map city hs));
         last_hospital_names := Some (map name hs);
         last_intent := last_intent ctx |}
    else ctx in
  let query_lower := lower query in
  if any_in ["confirm"; "check"; "is"] query_lower then
    set_last_intent "confirmation" ctx
  else if any_in ["find"; "show"; "list"; "tell"] query_lower then
    set_last_intent "search" ctx
  else if any_in ["more"; "other"; "additional"] query_lower then
    set_last_intent "followup" ctx
  else ctx.

Definition add_interaction (self : ConversationMemory)
    (user_query ai_response : string) (hs : list Hospital)
    : ConversationMemory :=
  let history1 :=
    (history self
     ++ [{| user := user_query; assistant := ai_response;
            hospitals := hs |}])%list in
  let history2 :=
    if (max_history self <? Z.of_nat (List.length history1))%Z
    then slice_from (- max_history self) history1
    else history1 in
  {| history := history2; max_history := max_history self;
     context := _update_context user_query hs (context self) |}.

Definition get_conversation_context (self : ConversationMemory) : string :=
  if negb (truthy (history self)) then ""
  else
    fold_left
      (fun context_str interaction =>
         context_str ++ "User: " ++ user interaction ++ "\nAssistant: "
         ++ assistant interaction ++ "\n")
      (slice_from (-3) (history self))
      "Previous conversation:\n".

Definition get_last_city (self : ConversationMemory) : result (option string) :=
  match last_cities (context self) with
  | Some cities => c <- getitem cities 0 ;; Ok (Some c)
  | None => Ok None
  end.

Definition clear (self : ConversationMemory) : ConversationMemory :=
  {| history := []; max_history := max_history self;
     context := {| last_cities := None; last_hospital_names := None;
                   last_intent := None |} |}.

(** *** [HospitalRAG] *)

(** [normalize(X)] on one row: a zero norm is replaced by one. *)
Definition normalize (v : list Q) : list Q :=
  let n := l2norm v in
  let n := if Qeq_bool n 0 then 1%Q else n in
  map (fun x => (x / n)%Q) v.

(** [cosine_similarity(query_vec, tfidf_matrix).flatten()]; rows of another
    width than the query vector raise [ValueError]. *)
Definition cosine_similarity (x : list Q) (Y : list (list Q))
    : result (list Q) :=
  if forallb (fun row => List.length row =? List.length x) Y
  then Ok (map (fun row => dot (normalize x) (normalize row)) Y)
  else Raise ValueError.

Definition Qgtb (x y : Q) : bool := negb (Qle_bool x y).

Definition relevance_of (s : Q) : string :=
  if Qgtb s 0.5 then "high" else if Qgtb s 0.2 then "medium" else "low".

(** The [for idx in top_indices] loop of [search_hospitals]; [acc] is the
    list [hospitals] built so far. *)
Fixpoint collect (self : HospitalRAG) (similarities : list Q)
    (score_threshold : Q) (top_indices : list nat) (acc : list Hospital)
    : result (list Hospital) :=
  match top_indices with
  | [] => Ok acc
  | idx :: rest =>
      if idx <? List.length (metadata self) then
        s <- getitem similarities idx ;;
        if Qle_bool score_threshold s then
          meta <- getitem (metadata self) idx ;;
          doc <- getitem (documents self) idx ;;
          collect self similarities score_threshold rest
            (acc ++ [{| name := meta_name meta; address := meta_address meta;
                        city := meta_city meta; full_text := Some doc;
                        score := s; relevance := relevance_of s |}])%list
        else collect self similarities score_threshold rest acc
      else collect self similarities score_threshold rest acc
  end.

Definition search_hospitals (self : HospitalRAG) (query : string) (k : Z)
    (score_threshold : Q) : result (list Hospital) :=
  match vectorizer self, tfidf_matrix self with
  | Some v, Some matrix =>
      try_except
        (query_vec <- transform v query ;;
         similarities <- cosine_similarity query_vec matrix ;;
         let top_indices := slice_to k (rev (argsort similarities)) in
         collect self similarities score_threshold top_indices [])
        (Ok [])
  | _, _ => Ok []
  end.

(** Default value of the parameter [score_threshold]. *)
Definition default_threshold : Q := 0.1.

(** The boolean mask of [search_by_name_and_city], as the rows it selects. *)
Definition row_matches (nm : string) (cty : option string) (r : Row) : bool :=
  contains (lower nm) (lower (hospital_name r))
  && match given cty with
     | Some c => contains (lower c) (lower (row_city r))
     | None => true
     end.

Definition exact_rows (df : DataFrame) (nm : string) (cty : option string)
    : result (list Row) :=
  if str_columns df then Ok (filter (row_matches nm cty) (rows df))
  else Raise AttributeError.

Definition exact_entry (r : Row) : Hospital :=
  {| name := hospital_name r; address := row_address r; city := row_city r;
     full_text := None; score := 1.0; relevance := "high" |}.

Definition fallback_query (nm : string) (cty : option string) : string :=
  match given cty with
  | Some c => nm ++ " hospital in " ++ c
  | None => nm ++ " hospital"
  end.

(** The [for result in semantic_results] loop; [acc] is [hospitals]. *)
Fixpoint extend (existing_names : list string) (k : Z)
    (semantic_results : list Hospital) (acc : list Hospital)
    : list Hospital :=
  match semantic_results with
  | [] => acc
  | r :: rest =>
      if negb (str_in (lower (name r)) existing_names) then
        let acc := (acc ++ [r])%list in
        if (k <=? Z.of_nat (List.length acc))%Z then acc
        else extend existing_names k rest acc
      else extend existing_names k rest acc
  end.

Definition search_by_name_and_city (self : HospitalRAG) (nm : string)
    (cty : option string) (k : Z) : result (list Hospital) :=
  match hospitals_df self with
  | None => Ok []
  | Some df =>
      try_except
        (text_results <- exact_rows df nm cty ;;
         let hs := map exact_entry (slice_to k text_results) in
         hs <-
           (if (Z.of_nat (List.length hs) <? k)%Z then
              semantic_results <-
                search_hospitals self (fallback_query nm cty) k
                  default_threshold ;;
              let existing_names := map (fun h => lower (name h)) hs in
              Ok (extend existing_names k semantic_results hs)
            else Ok hs) ;;
         Ok (slice_to k hs))
        (search_hospitals self (fallback_query nm cty) k default_threshold)
  end.

(** *** Regular expressions, as far as [_extract_intent] needs them *)

Inductive regex : Type :=
| Lit (s : string)
| Plus (c : ascii)
| Group (r : regex)
| Alt (r1 r2 : regex)
| Seq (r1 r2 : regex).

(** Matches of [c+] at the start of [s], longest first. *)
Fixpoint plus_matches (c : ascii) (s : string) : list (string * string) :=
  match s with
  | EmptyString => []
  | String c' s' =>
      if Ascii.eqb c c' then
        (map (fun m => (String c' (fst m), snd m)) (plus_matches c s')
         ++ [(String c' EmptyString, s')])%list
      else []
  end.

(** [drop_prefix p s] is the rest of [s] after its prefix [p]. *)
Fixpoint drop_prefix (p s : string) : option string :=
  match p, s with
  | EmptyString, _ => Some s
  | String a p', String b s' => if Ascii.eqb a b then drop_prefix p' s' else None
  | String _ _, EmptyString => None
  end.

Definition or_else {A} (a b : option A) : option A :=
  match a with Some _ => a | None => b end.

(** All the ways [r] matches at the start of [s], in the order a
    backtracking matcher tries them: the text matched, the text captured by
    the group, and the rest of [s]. *)
Fixpoint rmatch (r : regex) (s : string)
    : list (string * option string * string) :=
  match r with
  | Lit p =>
      match drop_prefix p s with
      | Some rest => [(p, None, rest)]
      | None => []
      end
  | Plus c => map (fun m => (fst m, None, snd m)) (plus_matches c s)
  | Group r1 =>
      map (fun m => (fst (fst m), Some (fst (fst m)), snd m)) (rmatch r1 s)
  | Alt r1 r2 => (rmatch r1 s ++ rmatch r2 s)%list
  | Seq r1 r2 =>
      flat_map
        (fun m1 =>
           map (fun m2 =>
                  (fst (fst m1) ++ fst (fst m2),
                   or_else (snd (fst m2)) (snd (fst m1)),
                   snd m2))
               (rmatch r2 (snd m1)))
        (rmatch r1 s)
  end.

(** [re.findall(r, s)[0]] for a pattern with one group, [None] when
    [findall] returns the empty list: the group of the leftmost match. *)
Fixpoint findall_first (r : regex) (s : string) : option string :=
  match rmatch r s with
  | m :: _ => Some (match snd (fst m) with Some g => g | None => "" end)
  | [] =>
      match s with
      | EmptyString => None
      | String _ s' => findall_first r s'
      end
  end.

(** The pattern of [_extract_intent].  It is written as a raw string with
    doubled backslashes, [r'\\b(\\d+|three|five|ten)\\b']: each [\\] is an
    escaped backslash, so the pattern reads a backslash, the letter [b],
    then in the group either a backslash and one or more letters [d] or one
    of the three words, then a backslash and the letter [b]. *)
Definition number_pattern : regex :=
  Seq (Lit "\b")
    (Seq (Group (Alt (Seq (Lit "\") (Plus "d"))
                  (Alt (Lit "three") (Alt (Lit "five") (Lit "ten")))))
       (Lit "\b")).

(** [s.isdigit()] *)
Definition isdigit (s : string) : bool :=
  match s with
  | EmptyString => false
  | _ => forallb is_digit (list_ascii_of_string s)
  end.

(** [int(s)] on a string of decimal digits. *)
Definition int_of_digits (s : string) : Z :=
  fold_left (fun acc c => (10 * acc + Z.of_nat (nat_of_ascii c - 48))%Z)
    (list_ascii_of_string s) 0%Z.

(** [d.get(key, default)] on a dict given by its items. *)
Fixpoint dict_get {V} (d : list (string * V)) (key : string) (default : V) : V :=
  match d with
  | [] => default
  | (k, v) :: d' => if String.eqb k key then v else dict_get d' key default
  end.

(** *** [LoopAIAgent] *)

Definition _is_hospital_related (query : string) : bool :=
  any_in ["hospital"; "clinic"; "medical"; "health"; "doctor"; "healthcare";
          "network"; "manipal"; "apollo"; "fortis"; "bangalore"; "delhi";
          "location"; "address"; "find"; "near"; "around"; "city"; "confirm";
          "check"; "available"; "list"; "tell"]
    (lower query).

(** The classification of [_extract_intent]. *)
Definition classify (query_lower : string) : string :=
  if any_in ["confirm"; "is"; "check"; "verify"] query_lower then "confirmation"
  else if any_in ["more"; "other"; "additional"] query_lower then "followup"
  else "search".

(** [for w in ws: if w in s: ... break]: the first word of [ws] found in [s]. *)
Definition first_in (ws : list string) (s : string) : option string :=
  find (fun w => contains w s) ws.

Definition count_of (query_lower : string) : Z :=
  match findall_first number_pattern query_lower with
  | Some number =>
      let num_map := [("three", 3%Z); ("five", 5%Z); ("ten", 10%Z)] in
      if isdigit number then dict_get num_map number (int_of_digits number)
      else dict_get num_map number 3%Z
  | None => 3%Z
  end.

Definition _extract_intent (mem : ConversationMemory) (query : string)
    : result Intent :=
  let query_lower := lower query in
  let type := classify query_lower in
  let cty :=
    option_map capitalize
      (first_in ["bangalore"; "bengaluru"; "delhi"; "mumbai"; "chennai";
                 "hyderabad"; "pune"; "kolkata"] query_lower) in
  cty <-
    (match given cty with
     | None => if String.eqb type "followup" then get_last_city mem else Ok cty
     | Some _ => Ok cty
     end) ;;
  let hosp :=
    first_in ["manipal"; "apollo"; "fortis"; "max"; "medanta"; "artemis"]
      query_lower in
  Ok {| intent_type := type; intent_city := cty;
        intent_hospital_name := hosp; intent_count := count_of query_lower |}.

Definition refusal_message : string :=
  "I'm sorry, I can only assist with hospital queries. Let me connect you with a human agent.".

Definition trouble_message : string :=
  "I'm having trouble processing your request. Please try again.".

Definition not_found_message : string :=
  "I couldn't find that hospital. Could you provide more details?".

(** The context block of the prompt. *)
Definition render_context (hs : list Hospital) : string :=
  if truthy hs then
    fold_left
      (fun context ih =>
         context ++ str_of_nat (fst ih) ++ ". " ++ name (snd ih) ++ " in "
         ++ city (snd ih) ++ "\n   Address: " ++ address (snd ih) ++ "\n")
      (combine (seq 1 3) (slice_to 3 hs))
      ("Found " ++ str_of_nat (List.length hs) ++ " hospital(s):\n")
  else "No hospitals found.".

Definition render_prompt (context conversation_context user_query : string)
    : string :=
  "Context: " ++ context ++ "\n" ++ conversation_context ++ "\nUser: "
  ++ user_query
  ++ "\n\nProvide a concise voice response (2-3 sentences, NO newlines).".

(** [response['message']['content'].strip().replace('\\n', ' ').replace('\\r', ' ')] *)
Definition clean (content : string) : string :=
  replace "\r" " " (replace "\n" " " (strip content)).

(** The quality check on a generated answer. *)
Definition acceptable (answer : string) : bool :=
  (20 <? String.length answer) && (String.length answer <? 500)
  && negb (startswith answer "I apologize").

(** The sentence after the attempt loop. *)
Definition fallback_answer (hs : list Hospital) : string :=
  if truthy hs then
    "I found " ++ str_of_nat (List.length hs) ++ " hospitals: "
    ++ join ", " (map name (slice_to 3 hs)) ++ "."
  else not_found_message.

Definition record_turn (self : LoopAIAgent) (user_query answer : string)
    (hs : list Hospital) : LoopAIAgent :=
  {| rag_engine := rag_engine self;
     memory := add_interaction (memory self) user_query answer hs;
     session_started := session_started self;
     system_prompt := system_prompt self;
     greeting_message := greeting_message self |}.

(** The loop [for attempt in range(1, 4)] followed by the fallback, from
    the attempts [todo] still to make.  The agent returned is the agent
    after the call, also when the call raises. *)
Fixpoint generate (self : LoopAIAgent) (intro user_query prompt : string)
    (hs : list Hospital) (todo : list nat) : LoopAIAgent * result string :=
  match todo with
  | [] =>
      let answer := fallback_answer hs in
      (record_turn self user_query answer hs, Ok (intro ++ answer))
  | attempt :: rest =>
      match chat attempt (system_prompt self) prompt with
      | Ok content =>
          let answer := clean content in
          if acceptable answer then
            (record_turn self user_query answer hs, Ok (intro ++ answer))
          else generate self intro user_query prompt hs rest
      | Raise e =>
          if attempt =? 3 then (self, Raise e)
          else generate self intro user_query prompt hs rest
      end
  end.

(** Step 2 of [process_query]. *)
Definition retrieve (self : LoopAIAgent) (user_query : string) (it : Intent)
    : result (list Hospital) :=
  match
    (if String.eqb (intent_type it) "confirmation" then given (intent_hospital_name it)
     else None)
  with
  | Some hosp =>
      search_by_name_and_city (rag_engine self) hosp (intent_city it)
        (intent_count it)
  | None =>
      search_hospitals (rag_engine self) user_query (intent_count it)
        default_threshold
  end.

(** The body of the outer [try] of [process_query]. *)
Definition process_query_body (self : LoopAIAgent) (user_query : string)
    (is_first_message : bool) : LoopAIAgent * result string :=
  let first := is_first_message || negb (session_started self) in
  let self :=
    if first then
      {| rag_engine := rag_engine self; memory := memory self;
         session_started := true; system_prompt := system_prompt self;
         greeting_message := greeting_message self |}
    else self in
  if first
     && str_in (lower (strip user_query)) ["hi"; "hello"; "hey"; "start"; "help"]
  then (self, Ok (greeting_message self))
  else
    let intro := if first then "Hello! I'm Loop AI Health Assistant. " else "" in
    if negb (_is_hospital_related user_query) then (self, Ok refusal_message)
    else
      match _extract_intent (memory self) user_query with
      | Raise e => (self, Raise e)
      | Ok it =>
          match retrieve self user_query it with
          | Raise e => (self, Raise e)
          | Ok hs =>
              let conversation_context :=
                get_conversation_context (memory self) in
              let prompt :=
                render_prompt (render_context hs) conversation_context
                  user_query in
              generate self intro user_query prompt hs (seq 1 3)
          end
      end.

Definition process_query (self : LoopAIAgent) (user_query : string)
    (is_first_message : bool) : LoopAIAgent * result string :=
  match process_query_body self user_query is_first_message with
  | (self', Ok answer) => (self', Ok answer)
  | (self', Raise _) => (self', Ok trouble_message)
  end.

End Program.

(** ** Sequences of calls on a [ConversationMemory] *)

Definition add_turn (list_set : list string -> list string)
    (self : ConversationMemory) (t : Turn) : ConversationMemory :=
  add_interaction list_set self (user t) (assistant t) (hospitals t).

Definition add_turns (list_set : list string -> list string)
    (self : ConversationMemory) (ts : list Turn) : ConversationMemory :=
  fold_left (add_turn list_set) ts self.

Inductive MemoryCall : Type :=
| CallAdd (t : Turn)
| CallClear.

Definition call (list_set : list string -> list string)
    (self : ConversationMemory) (c : MemoryCall) : ConversationMemory :=
  match c with
  | CallAdd t => add_turn list_set self t
  | CallClear => clear self
  end.

Definition calls (list_set : list string -> list string)
    (self : ConversationMemory) (cs : list MemoryCall) : ConversationMemory :=
  fold_left (call list_set) cs self.

(** Whether no turn with a non-empty result set has been added since the
    last [clear] (or since the memory was created). *)
Definition no_results_since_clear (cs : list MemoryCall) : bool :=
  fold_left
    (fun b c =>
       match c with
       | CallAdd t => b && negb (truthy (hospitals t))
       | CallClear => true
       end)
    cs true.

(** The values of the context keys, an absent key read as the empty list. *)
Definition cities_of (self : ConversationMemory) : list string :=
  match last_cities (context self) with Some l => l | None => [] end.

Definition names_of (self : ConversationMemory) : list string :=
  match last_hospital_names (context self) with Some l => l | None => [] end.

(** The last [n] elements of a list. *)
Definition last_n {A} (n : nat) (l : list A) : list A :=
  skipn (List.length l - n) l.

(** ** The result list of [search_hospitals], index by index *)

Definition default_meta : Meta :=
  {| meta_name := ""; meta_city := ""; meta_address := ""; meta_index := 0 |}.

(** The entry appended for the index [idx], when one is appended. *)
Definition entry_at (self : HospitalRAG) (similarities : list Q) (idx : nat)
    : Hospital :=
  let meta := nth idx (metadata self) default_meta in
  let s := nth idx similarities 0%Q in
  {| name := meta_name meta; address := meta_address meta;
     city := meta_city meta; full_text := Some (nth idx (documents self) "");
     score := s; relevance := relevance_of s |}.

(** The condition under which the loop appends an entry for [idx]. *)
Definition kept (self : HospitalRAG) (similarities : list Q)
    (score_threshold : Q) (idx : nat) : bool :=
  (idx <? List.length (metadata self))
  && Qle_bool score_threshold (nth idx similarities 0%Q).

(** The rows of the catalogue, none when there is no data frame. *)
Definition catalogue (self : HospitalRAG) : list Row :=
  match hospitals_df self with
  | Some df => rows df
  | None => []
  end.

(** ** Outcomes of a generation attempt *)

(** The attempt returned a text that the quality check refuses. *)
Definition rejected (r : result string) : Prop :=
  exists content, r = Ok content /\ acceptable (clean content) = false.

(** The call raised. *)
Definition raised (r : result string) : Prop :=
  exists e, r = Raise e.

(** The attempt produced no accepted answer. *)
Definition failed (r : result string) : Prop := rejected r \/ raised r.

(** The prefix of the answer on the first turn of a session. *)
Definition intro_of (self : LoopAIAgent) (is_first_message : bool) : string :=
  if is_first_message || negb (session_started self)
  then "Hello! I'm Loop AI Health Assistant. " else "".

(** The test that short-circuits a bare greeting on the first turn. *)
Definition greeted (self : LoopAIAgent) (user_query : string)
    (is_first_message : bool) : bool :=
  (is_first_message || negb (session_started self))
  && str_in (lower (strip user_query)) ["hi"; "hello"; "hey"; "start"; "help"].

(** ** Concrete data for running the program *)

(** The catalogue of [_create_dummy_data]. *)
Definition dummy_rows : list Row :=
  [ {| hospital_name := "Apollo Hospital"; row_address := "123 Main St";
       row_city := "Bangalore" |};
    {| hospital_name := "Manipal Hospital"; row_address := "456 Park Ave";
       row_city := "Bangalore" |};
    {| hospital_name := "Fortis Hospital"; row_address := "789 Lake Rd";
       row_city := "Delhi" |} ].

Definition dummy_metadata : list Meta :=
  map (fun ir =>
         {| meta_name := hospital_name (snd ir); meta_city := row_city (snd ir);
            meta_address := row_address (snd ir); meta_index := fst ir |})
      (combine (seq 0 3) dummy_rows).

Definition dummy_documents : list string :=
  map (fun r => hospital_name r ++ " " ++ row_city r ++ " " ++ row_address r
                ++ " hospital")
      dummy_rows.

(** A vectorizer over the three-word vocabulary apollo, manipal, fortis
    (weight one for a word the query contains), and the matrix of the three
    documents over it, extended by a fourth feature, bangalore. *)
Definition brand_vectorizer : Vectorizer :=
  {| transform := fun q =>
       Ok (map (fun w => if contains w (lower q) then 1%Q else 0%Q)
             ["apollo"; "manipal"; "fortis"; "bangalore"]) |}.

Definition dummy_matrix : list (list Q) :=
  [ [1; 0; 0; 0]; [0; 1; 0; 0]; [0; 0; 1; 0] ]%Q.

Definition dummy_rag : HospitalRAG :=
  {| hospitals_df := Some {| rows := dummy_rows; str_columns := true |};
     documents := dummy_documents; metadata := dummy_metadata;
     vectorizer := Some brand_vectorizer; tfidf_matrix := Some dummy_matrix |}.

(** A vectorizer under which every document is as close to the query
    "hospital" as every other. *)
Definition flat_vectorizer : Vectorizer :=
  {| transform := fun q =>
       Ok [if contains "hospital" (lower q) then 1%Q else 0%Q] |}.

Definition flat_rag : HospitalRAG :=
  {| hospitals_df := Some {| rows := dummy_rows; str_columns := true |};
     documents := dummy_documents; metadata := dummy_metadata;
     vectorizer := Some flat_vectorizer;
     tfidf_matrix := Some [[1]; [1]; [1]]%Q |}.

Definition fresh_agent (rag : HospitalRAG) : LoopAIAgent :=
  {| rag_engine := rag; memory := new_memory 10; session_started := false;
     system_prompt := "You are Loop AI Health Assistant.";
     greeting_message := "Hello! I'm Loop AI Health Assistant." |}.

Definition fortis_result : Hospital :=
  {| name := "Fortis Hospital"; address := "789 Lake Rd"; city := "Delhi";
     full_text := None; score := 1.0; relevance := "high" |}.

Definition numbered_turn (i : nat) : Turn :=
  {| user := "more hospitals " ++ str_of_nat i; assistant := "Here they are.";
     hospitals := [] |}.

Definition eleven_turns : list Turn := map numbered_turn (seq 1 11).

(** ** Further descriptions used by the properties below *)

(** A present [last_cities] key holds a non-empty list. *)
Definition memory_ok (self : ConversationMemory) : Prop :=
  forall l, last_cities (context self) = Some l -> l <> [].

(** The two lines [get_conversation_context] writes for a turn. *)
Definition render_turn (t : Turn) : string :=
  "User: " ++ user t ++ "\nAssistant: " ++ assistant t ++ "\n".

Definition render_turns (ts : list Turn) : string :=
  fold_right (fun t rest => render_turn t ++ rest) "" ts.

(** One call of [process_query]: the language model as it behaves during
    the call, the utterance, and the flag passed by the caller. *)
Record Utterance : Type := {
  model : nat -> string -> string -> result string;
  said : string;
  flagged_first : bool
}.

(** The agent after a sequence of [process_query] calls. *)
Definition converse (list_set : list string -> list string)
    (argsort : list Q -> list nat) (l2norm : list Q -> Q)
    (self : LoopAIAgent) (us : list Utterance) : LoopAIAgent :=
  fold_left
    (fun a u =>
       fst (process_query list_set argsort l2norm (model u) a (said u)
              (flagged_first u)))
    us self.

(** Whether every character of [s] is white space, and whether none is. *)
Fixpoint all_space (s : string) : bool :=
  match s with
  | EmptyString => true
  | String c s' => is_space c && all_space s'
  end.

Fixpoint no_space (s : string) : bool :=
  match s with
  | EmptyString => true
  | String c s' => negb (is_space c) && no_space s'
  end.

(** Whether the character [c] occurs in [s]. *)
Fixpoint has_char (c : ascii) (s : string) : bool :=
  match s with
  | EmptyString => false
  | String a s' => Ascii.eqb c a || has_char c s'
  end.

(** ** Building the index ([_load_and_index_data], after the file is read) *)

(** A row as read from the CSV file: a missing cell is [None] (NaN). *)
Record RawRow : Type := {
  raw_name : option string;
  raw_address : option string;
  raw_city : option string
}.

(** [df.fillna("")] on one row. *)
Definition fillna (r : RawRow) : Row :=
  {| hospital_name := match raw_name r with Some s => s | None => "" end;
     row_address := match raw_address r with Some s => s | None => "" end;
     row_city := match raw_city r with Some s => s | None => "" end |}.

(** The columns [drop_duplicates] compares. *)
Definition dedup_key (r : Row) : string * string :=
  (hospital_name r, row_city r).

Definition key_eqb (a b : string * string) : bool :=
  String.eqb (fst a) (fst b) && String.eqb (snd a) (snd b).

(** [drop_duplicates(subset=['hospital name', 'city'])] on rows that carry
    their index label: the first row of each key is kept, with its label.
    [seen] holds the keys of the rows already passed. *)
Fixpoint drop_duplicates (seen : list (string * string))
    (labelled : list (nat * Row)) : list (nat * Row) :=
  match labelled with
  | [] => []
  | (i, r) :: rest =>
      if existsb (key_eqb (dedup_key r)) seen then drop_duplicates seen rest
      else (i, r) :: drop_duplicates (dedup_key r :: seen) rest
  end.

(** [hospitals_df] after [fillna] and [drop_duplicates], from the rows of
    the file, labelled 0, 1, 2, ... by [read_csv]. *)
Definition load_rows (raw : list RawRow) : list (nat * Row) :=
  drop_duplicates [] (combine (seq 0 (List.length raw)) (map fillna raw)).

(** The document and the metadata entry the loop over [iterrows()] builds
    for a row. *)
Definition document_of (r : Row) : string :=
  strip (hospital_name r) ++ " " ++ strip (row_city r) ++ " "
  ++ strip (row_address r) ++ " hospital healthcare facility medical center".

Definition meta_of (ir : nat * Row) : Meta :=
  {| meta_name := strip (hospital_name (snd ir));
     meta_city := strip (row_city (snd ir));
     meta_address := strip (row_address (snd ir));
     meta_index := fst ir |}.

(** The engine after [_load_and_index_data] has read [raw] and fitted the
    vectorizer [v] with document matrix [matrix]. *)
Definition indexed (raw : list RawRow) (v : Vectorizer)
    (matrix : list (list Q)) : HospitalRAG :=
  let df := load_rows raw in
  {| hospitals_df := Some {| rows := map snd df; str_columns := true |};
     documents := map (fun ir => document_of (snd ir)) df;
     metadata := map meta_of df;
     vectorizer := Some v; tfidf_matrix := Some matrix |}.

(** ** The chat endpoint of [src/main.py] *)

Record HTTPException : Type := {
  status_code : nat;
  detail : string
}.

(** The parts of the request the handler reads: the content-type header
    (empty when absent), the outcome of
    [(await request.json()).get('text_query')], the outcome of
    [await audio.read()] when a file was uploaded, and the form field. *)
Record ChatRequest : Type := {
  content_type : string;
  json_text_query : result (option string);
  audio : option (result string);
  text_query : option string
}.

(** The Deepgram client: [transcribe] is the transcript read from the
    response of [transcribe_file] ([None] when neither way of reading it
    works), [speak] the chunks of [audio.generate]. *)
Record Deepgram : Type := {
  transcribe : string -> result (option string);
  speak : string -> result (list string)
}.

(** The [StreamingResponse] of a successful call. *)
Record ChatResponse : Type := {
  body : string;
  media_type : string;
  headers : list (string * string)
}.

(** The module state: [deepgram], [agent], [session_state]. *)
Record Server : Type := {
  deepgram : option Deepgram;
  agent : LoopAIAgent;
  is_first_message : bool
}.

Definition newline : string := String "010" EmptyString.

Definition carriage_return : string := String "013" EmptyString.

(** [s.replace('\n', ' ').replace('\r', ' ')] *)
Definition clean_header (s : string) : string :=
  replace carriage_return " " (replace newline " " s).

Section Endpoint.

Variable list_set : list string -> list string.
Variable argsort : list Q -> list nat.
Variable l2norm : list Q -> Q.
Variable chat_model : nat -> string -> string -> result string.

(** [str(e)] *)
Variable str_of_exn : exn -> string.

Definition unexpected (e : exn) : HTTPException :=
  {| status_code := 500;
     detail := "An unexpected error occurred: " ++ str_of_exn e |}.

(** Step 1 and 2 of [chat]: the transcript, from the text query or from
    the uploaded audio. *)
Definition get_transcript (dg : Deepgram) (req : ChatRequest)
    (query : option string) : string + HTTPException :=
  match given query with
  | Some t => inl t
  | None =>
      match audio req with
      | Some (Raise e) => inr (unexpected e)
      | Some (Ok audio_data) =>
          match transcribe dg audio_data with
          | Raise e =>
              inr {| status_code := 500;
                     detail := "Speech recognition failed: " ++ str_of_exn e |}
          | Ok transcript =>
              match given transcript with
              | Some t =>
                  if String.eqb (strip t) ""
                  then inr {| status_code := 400;
                              detail := "Could not understand audio. Please speak clearly." |}
                  else inl t
              | None =>
                  inr {| status_code := 400;
                         detail := "Could not understand audio. Please speak clearly." |}
              end
          end
      | None =>
          inr {| status_code := 400;
                 detail := "Either audio file or text_query must be provided" |}
      end
  end.

(** The handler of [POST /chat]: the module state after the call, and the
    response or the [HTTPException] raised. *)
Definition chat (srv : Server) (req : ChatRequest)
    : Server * (ChatResponse + HTTPException) :=
  match
    (if contains "application/json" (content_type req)
     then json_text_query req else Ok (text_query req))
  with
  | Raise e => (srv, inr (unexpected e))
  | Ok query =>
      match deepgram srv with
      | None =>
          (srv,
           inr {| status_code := 500;
                  detail := "Deepgram API key not configured. Please set DEEPGRAM_API_KEY in .env file" |})
      | Some dg =>
          match get_transcript dg req query with
          | inr err => (srv, inr err)
          | inl transcript =>
              let r :=
                process_query list_set argsort l2norm chat_model (agent srv)
                  transcript (is_first_message srv) in
              match snd r with
              | Raise e =>
                  ({| deepgram := deepgram srv; agent := fst r;
                      is_first_message := is_first_message srv |},
                   inr {| status_code := 500;
                          detail := "AI processing failed: " ++ str_of_exn e |})
              | Ok ai_response =>
                  let srv :=
                    {| deepgram := deepgram srv; agent := fst r;
                       is_first_message := false |} in
                  match speak dg ai_response with
                  | Raise e =>
                      (srv,
                       inr {| status_code := 500;
                              detail := "Text-to-speech failed: " ++ str_of_exn e |})
                  | Ok audio_chunks =>
                      let audio_response := String.concat "" audio_chunks in
                      if String.eqb audio_response "" then
                        (srv,
                         inr {| status_code := 500;
                                detail := "Text-to-speech failed: No audio generated from TTS" |})
                      else
                        (srv,
                         inl {| body := audio_response;
                                media_type := "audio/wav";
                                headers :=
                                  [("Content-Disposition",
                                    "attachment; filename=response.wav");
                                   ("X-Transcript", clean_header transcript);
                                   ("X-AI-Response", clean_header ai_response)] |})
                  end
              end
          end
      end
  end.

End Endpoint.

(** ** More concrete data *)

Definition str_of_exn_name (e : exn) : string :=
  match e with
  | IndexError => "list index out of range"
  | KeyError => "key"
  | ValueError => "value"
  | AttributeError => "attribute"
  | RuntimeError msg => msg
  end.

(** A Deepgram client that hears "find hospital in delhi" in every audio
    and speaks every text as the same four bytes. *)
Definition deepgram_stub : Deepgram :=
  {| transcribe := fun _ => Ok (Some "find hospital in delhi");
     speak := fun _ => Ok ["RI"; "FF"] |}.

Definition stub_server : Server :=
  {| deepgram := Some deepgram_stub; agent := fresh_agent flat_rag;
     is_first_message := true |}.

Definition text_request (q : string) : ChatRequest :=
  {| content_type := "application/json"; json_text_query := Ok (Some q);
     audio := None; text_query := None |}.

Definition raw_catalogue : list RawRow :=
  [ {| raw_name := Some "Apollo Hospital"; raw_address := Some "123 Main St";
       raw_city := Some "Bangalore" |};
    {| raw_name := Some "Fortis Hospital"; raw_address := None;
       raw_city := Some "Delhi" |};
    {| raw_name := Some "Apollo Hospital"; raw_address := Some "1 MG Road";
       raw_city := Some "Bangalore" |} ].

(** * Properties of the conversation memory *)

Section MemoryFacts.

Variable list_set : list string -> list string.

Lemma turn_eta (t : Turn) :
  {| user := user t; assistant := assistant t; hospitals := hospitals t |} = t.
Proof. now destruct t. Qed.

Lemma add_turn_max_history (m : ConversationMemory) (t : Turn) :
  max_history (add_turn list_set m t) = max_history m.
Proof. reflexivity. Qed.

Lemma add_turns_max_history (ts : list Turn) (m : ConversationMemory) :
  max_history (add_turns list_set m ts) = max_history m.
Proof.
  revert m; induction ts as [|t ts IH]; intro m; [reflexivity|].
  change (add_turns list_set m (t :: ts))
    with (add_turns list_set (add_turn list_set m t) ts).
  now rewrite IH.
Qed.

(** One call keeps the last [n] turns of the history extended by the new
    turn, whether or not the slice is taken. *)
Lemma add_turn_history (n : nat) (m : ConversationMemory) (t : Turn) :
  max_history m = Z.of_nat n -> 0 < n ->
  history (add_turn list_set m t) = last_n n (history m ++ [t])%list.
Proof.
  intros Hmax Hn. unfold add_turn, add_interaction; simpl.
  rewrite turn_eta, Hmax. unfold last_n.
  destruct (Z.ltb_spec (Z.of_nat n)
              (Z.of_nat (List.length (history m ++ [t])%list))) as [Hlt|Hge].
  - unfold slice_from.
    destruct (Z.leb_spec 0 (- Z.of_nat n)) as [Hneg|_]; [lia|].
    f_equal. lia.
  - replace (List.length (history m ++ [t])%list - n) with 0 by lia.
    reflexivity.
Qed.

Lemma last_n_snoc {A} (n : nat) (l : list A) (x : A) :
  0 < n -> last_n n (last_n n l ++ [x])%list = last_n n (l ++ [x])%list.
Proof.
  intro Hn. unfold last_n.
  rewrite !length_app, length_skipn; simpl.
  set (k := List.length l - n).
  assert (Hk : k <= List.length l) by (unfold k; lia).
  replace (skipn k l ++ [x])%list with (skipn k (l ++ [x])%list).
  - rewrite skipn_skipn. f_equal. unfold k. lia.
  - rewrite skipn_app. replace (k - List.length l) with 0 by lia. reflexivity.
Qed.

Lemma add_turns_history (n : nat) (ts pre : list Turn) (m : ConversationMemory) :
  max_history m = Z.of_nat n -> 0 < n ->
  history m = last_n n pre ->
  history (add_turns list_set m ts) = last_n n (pre ++ ts)%list.
Proof.
  revert pre m; induction ts as [|t ts IH]; intros pre m Hmax Hn Hh.
  - now rewrite app_nil_r.
  - change (add_turns list_set m (t :: ts))
      with (add_turns list_set (add_turn list_set m t) ts).
    replace (pre ++ t :: ts)%list with ((pre ++ [t]) ++ ts)%list
      by now rewrite <- app_assoc.
    apply IH; [now rewrite add_turn_max_history | assumption |].
    rewrite (add_turn_history n) by assumption.
    rewrite Hh. now apply last_n_snoc.
Qed.

Lemma last_n_length {A} (n : nat) (l : list A) : List.length (last_n n l) <= n.
Proof. unfold last_n. rewrite length_skipn. lia. Qed.

(** C9. With a positive cap [n], after any sequence of [add_interaction]
    calls on a new memory the history is no longer than [n] and consists of
    the [n] most recent turns in the order they were added (the oldest are
    evicted first); with the default cap 10, eleven calls leave the ten
    most recent turns. *)
Theorem history_keeps_most_recent (n : Z) (ts : list Turn) :
  (0 < n)%Z ->
  let m := add_turns list_set (new_memory n) ts in
  (Z.of_nat (List.length (history m)) <= n)%Z
  /\ history m = last_n (Z.to_nat n) ts
  /\ (n = 10%Z -> List.length ts = 11 -> history m = tl ts).
Proof.
  intros Hn m.
  assert (Hh : history m = last_n (Z.to_nat n) ts).
  { unfold m.
    rewrite (add_turns_history (Z.to_nat n) ts [] (new_memory n));
      [reflexivity | simpl; lia | lia | reflexivity]. }
  split; [|split].
  - rewrite Hh. pose proof (last_n_length (Z.to_nat n) ts). lia.
  - exact Hh.
  - intros -> Hlen. rewrite Hh. unfold last_n. rewrite Hlen.
    destruct ts; [discriminate | reflexivity].
Qed.

(** Case analysis on the three keyword tests of [_update_context]. *)
Ltac case_keywords q :=
  destruct (any_in ["confirm"; "check"; "is"] (lower q));
  [|destruct (any_in ["find"; "show"; "list"; "tell"] (lower q));
    [|destruct (any_in ["more"; "other"; "additional"] (lower q))]].

Lemma update_context_cities (q : string) (hs : list Hospital) (ctx : Context) :
  last_cities (_update_context list_set q hs ctx)
  = if truthy hs then Some (list_set (map city hs)) else last_cities ctx.
Proof.
  unfold _update_context. case_keywords q; destruct hs; reflexivity.
Qed.

Lemma update_context_names (q : string) (hs : list Hospital) (ctx : Context) :
  last_hospital_names (_update_context list_set q hs ctx)
  = if truthy hs then Some (map name hs) else last_hospital_names ctx.
Proof.
  unfold _update_context. case_keywords q; destruct hs; reflexivity.
Qed.

Lemma update_context_intent (q : string) (hs : list Hospital) (ctx : Context) :
  last_intent (_update_context list_set q hs ctx)
  = if any_in ["confirm"; "check"; "is"] (lower q) then Some "confirmation"
    else if any_in ["find"; "show"; "list"; "tell"] (lower q) then Some "search"
    else if any_in ["more"; "other"; "additional"] (lower q) then Some "followup"
    else last_intent ctx.
Proof.
  unfold _update_context. case_keywords q; destruct hs; reflexivity.
Qed.

(** C3, amended. A call with a non-empty result set [R] overwrites both
    keys from [R] alone: [last_cities] holds the distinct cities of [R]
    and [last_hospital_names] the names of [R]; a call with an empty
    result set leaves both keys as they were. *)
Theorem context_recomputed_from_nonempty_results
    (m : ConversationMemory) (q a : string) (R : list Hospital) :
  (forall l, NoDup (list_set l) /\ forall x, In x (list_set l) <-> In x l) ->
  let m' := add_interaction list_set m q a R in
  (R <> [] ->
   last_cities (context m') = Some (list_set (map city R))
   /\ NoDup (cities_of m')
   /\ (forall c, In c (cities_of m') <-> In c (map city R))
   /\ last_hospital_names (context m') = Some (map name R))
  /\ (R = [] ->
      last_cities (context m') = last_cities (context m)
      /\ last_hospital_names (context m') = last_hospital_names (context m)).
Proof.
  intros Hset m'.
  assert (Hc := update_context_cities q R (context m)).
  assert (Hn := update_context_names q R (context m)).
  split.
  - intro HR. destruct R as [|h R']; [contradiction|]. simpl truthy in *.
    unfold cities_of. simpl context. rewrite Hc.
    repeat split; try apply Hset; try assumption; apply Hset.
  - intros ->. simpl in *. now split.
Qed.

Lemma call_invariant (cs : list MemoryCall) (m : ConversationMemory) (b : bool) :
  (forall l, l <> [] -> list_set l <> []) ->
  (forall l, last_cities (context m) = Some l -> l <> []) ->
  (last_cities (context m) = None <-> b = true) ->
  let m' := calls list_set m cs in
  (forall l, last_cities (context m') = Some l -> l <> [])
  /\ (last_cities (context m') = None
      <-> fold_left
            (fun b c =>
               match c with
               | CallAdd t => b && negb (truthy (hospitals t))
               | CallClear => true
               end)
            cs b = true).
Proof.
  intro Hne. revert m b; induction cs as [|c cs IH]; intros m b Hinv Hb.
  - simpl. now split.
  - change (calls list_set m (c :: cs))
      with (calls list_set (call list_set m c) cs).
    cbn [fold_left]. apply IH.
    + destruct c as [t|]; simpl; [|discriminate].
      rewrite update_context_cities.
      destruct (hospitals t) as [|h hs]; simpl; [exact Hinv|].
      intros l [= <-]. now apply Hne.
    + destruct c as [t|]; simpl; [|tauto].
      rewrite update_context_cities.
      destruct (hospitals t) as [|h hs]; simpl.
      * now rewrite andb_true_r.
      * rewrite andb_false_r. split; discriminate.
Qed.

(** C10. On a memory obtained from a new one by any sequence of
    [add_interaction] and [clear] calls, a present [last_cities] key never
    holds the empty list, so [get_last_city] returns without raising; it
    returns [None] exactly when no turn with a non-empty result set has
    been added since the last [clear]. *)
Theorem get_last_city_total (n : Z) (cs : list MemoryCall) :
  (forall l, l <> [] -> list_set l <> []) ->
  let m := calls list_set (new_memory n) cs in
  (forall l, last_cities (context m) = Some l -> l <> [])
  /\ exists r, get_last_city m = Ok r
               /\ (r = None <-> no_results_since_clear cs = true).
Proof.
  intros Hne m.
  destruct (call_invariant cs (new_memory n) true Hne) as [Hinv Hiff];
    [discriminate | simpl; tauto |].
  fold m in Hinv, Hiff. split; [exact Hinv|].
  unfold get_last_city, no_results_since_clear.
  destruct (last_cities (context m)) as [l|] eqn:Hl.
  - destruct l as [|c l]; [now specialize (Hinv [] eq_refl)|].
    exists (Some c). split; [reflexivity|].
    split; [discriminate|]. intro H. apply Hiff in H. discriminate.
  - exists None. split; [reflexivity|]. tauto.
Qed.

(** C7, amended. The memory records the intent by a rule of its own:
    "confirmation" when the lowercased utterance contains "confirm",
    "check" or "is", else "search" when it contains "find", "show", "list"
    or "tell", else "followup" when it contains "more", "other" or
    "additional", else the recorded value is left as it was.  This is the
    type the extractor computes when the utterance contains "confirm",
    "check" or "is", and when it contains no "verify" and keywords of
    exactly one of the last two groups. *)
Theorem last_intent_rule (q : string) (hs : list Hospital) (ctx : Context) :
  let ql := lower q in
  let recorded := last_intent (_update_context list_set q hs ctx) in
  recorded
  = (if any_in ["confirm"; "check"; "is"] ql then Some "confirmation"
     else if any_in ["find"; "show"; "list"; "tell"] ql then Some "search"
     else if any_in ["more"; "other"; "additional"] ql then Some "followup"
     else last_intent ctx)
  /\ (any_in ["confirm"; "check"; "is"] ql = true
      \/ (contains "verify" ql = false
          /\ xorb (any_in ["find"; "show"; "list"; "tell"] ql)
                  (any_in ["more"; "other"; "additional"] ql) = true) ->
      recorded = Some (classify ql)).
Proof.
  intros ql recorded.
  assert (Hrule := update_context_intent q hs ctx). fold ql recorded in Hrule.
  split; [exact Hrule|].
  rewrite Hrule. unfold classify, any_in. cbn [existsb].
  destruct (contains "confirm" ql), (contains "check" ql), (contains "is" ql),
    (contains "verify" ql); cbn; try reflexivity; intros [H|[H1 H2]];
    try discriminate;
    destruct (contains "find" ql || (contains "show" ql
              || (contains "list" ql || (contains "tell" ql || false))));
    destruct (contains "more" ql || (contains "other" ql
              || (contains "additional" ql || false)));
    cbn in *; try reflexivity; discriminate.
Qed.

End MemoryFacts.

Lemma distinct_order_spec (l : list string) :
  NoDup (distinct_order l) /\ forall x, In x (distinct_order l) <-> In x l.
Proof.
  split; [apply NoDup_nodup | intro x; apply nodup_In].
Qed.

Lemma distinct_order_nonempty (l : list string) :
  l <> [] -> distinct_order l <> [].
Proof.
  destruct l as [|x l]; [contradiction|]. intros _ H.
  assert (Hin : In x (distinct_order (x :: l)))
    by (apply nodup_In; now left).
  rewrite H in Hin. contradiction.
Qed.

Lemma history_keeps_most_recent_witness :
  let m := add_turns distinct_order (new_memory 10) eleven_turns in
  (Z.of_nat (List.length (history m)) <= 10)%Z
  /\ history m = last_n 10 eleven_turns
  /\ history m = tl eleven_turns.
Proof.
  destruct (history_keeps_most_recent distinct_order 10 eleven_turns)
    as (Hlen & Hlast & Htl); [lia|].
  intro m. split; [exact Hlen | split; [exact Hlast | apply Htl; reflexivity]].
Defined.

(** C3, as stated, fails: after a turn that found a hospital in Delhi, a
    turn with an empty result set leaves Delhi in [last_cities]. *)
Lemma context_kept_on_empty_results :
  ~ (forall (m : ConversationMemory) (q a : string) (R : list Hospital),
        let m' := add_interaction distinct_order m q a R in
        (forall c, In c (cities_of m') <-> In c (map city R))
        /\ names_of m' = map name R).
Proof.
  intro H.
  specialize
    (H (add_interaction distinct_order (new_memory 10)
          "find hospitals in delhi" "Fortis Hospital is in Delhi."
          [fortis_result])
       "any psychiatric ward" "None found." []).
  destruct H as [H _]. destruct (H "Delhi") as [Hin _].
  apply Hin. vm_compute. now left.
Qed.

Lemma context_recomputed_from_nonempty_results_witness :
  let m' :=
    add_interaction distinct_order (new_memory 10) "find hospitals in delhi"
      "Fortis Hospital is in Delhi." [fortis_result] in
  last_cities (context m') = Some (distinct_order ["Delhi"])
  /\ NoDup (cities_of m')
  /\ (forall c, In c (cities_of m') <-> In c ["Delhi"])
  /\ last_hospital_names (context m') = Some ["Fortis Hospital"].
Proof.
  destruct (context_recomputed_from_nonempty_results distinct_order
              (new_memory 10) "find hospitals in delhi"
              "Fortis Hospital is in Delhi." [fortis_result]
              distinct_order_spec) as [Hfull _].
  apply Hfull. discriminate.
Defined.

Lemma get_last_city_total_witness :
  let m :=
    calls distinct_order (new_memory 10)
      [CallAdd {| user := "find hospitals in delhi";
                  assistant := "Fortis Hospital is in Delhi.";
                  hospitals := [fortis_result] |};
       CallClear] in
  (forall l, last_cities (context m) = Some l -> l <> [])
  /\ exists r, get_last_city m = Ok r
               /\ (r = None
                   <-> no_results_since_clear
                         [CallAdd {| user := "find hospitals in delhi";
                                     assistant := "Fortis Hospital is in Delhi.";
                                     hospitals := [fortis_result] |};
                          CallClear] = true).
Proof.
  apply (get_last_city_total distinct_order 10).
  exact distinct_order_nonempty.
Defined.

(** C7, as stated, fails: on "show me more hospitals" the extractor
    answers "followup" and the memory records "search". *)
Lemma classifiers_differ :
  classify (lower "show me more hospitals") = "followup"
  /\ last_intent
       (_update_context distinct_order "show me more hospitals" []
          (context (new_memory 10)))
     = Some "search".
Proof. split; reflexivity. Qed.

Lemma last_intent_rule_witness :
  let ql := lower "is Manipal Bangalore in network" in
  let recorded :=
    last_intent
      (_update_context distinct_order "is Manipal Bangalore in network" []
         (context (new_memory 10))) in
  any_in ["confirm"; "check"; "is"] ql = true
  /\ recorded = Some (classify ql).
Proof.
  split; [reflexivity|].
  apply (last_intent_rule distinct_order "is Manipal Bangalore in network"
           [] (context (new_memory 10))).
  left. reflexivity.
Defined.

(** * Properties of the intent extractor *)

Lemma lower_ascii_backslash (c : ascii) : lower_ascii c = "\"%char -> c = "\"%char.
Proof.
  destruct c as [[] [] [] [] [] [] [] []]; vm_compute; intro H;
    first [reflexivity | discriminate H].
Qed.

Lemma contains_cons_false (c a : ascii) (s : string) :
  contains (String c EmptyString) (String a s) = false ->
  a <> c /\ contains (String c EmptyString) s = false.
Proof.
  cbn [contains startswith]. destruct (Ascii.eqb_spec c a) as [->|Hne].
  - destruct s; discriminate.
  - intro H. split; [congruence | exact H].
Qed.

Lemma lower_no_backslash (q : string) :
  contains "\" q = false -> contains "\" (lower q) = false.
Proof.
  induction q as [|a q IH]; intro H; [reflexivity|].
  apply contains_cons_false in H. destruct H as [Ha Hq].
  cbn [lower contains startswith].
  destruct (Ascii.eqb_spec "\" (lower_ascii a)) as [Heq|_].
  - symmetry in Heq. apply lower_ascii_backslash in Heq. contradiction.
  - now apply IH.
Qed.

(** The pattern matches only where the text starts with a backslash. *)
Lemma rmatch_number_pattern_start (s : string) :
  rmatch number_pattern s <> [] -> exists rest, s = String "\" rest.
Proof.
  unfold number_pattern. cbn [rmatch].
  destruct s as [|a s]; [intro H; now contradiction H|].
  cbn [drop_prefix]. destruct (Ascii.eqb_spec "\" a) as [<-|Hne].
  - intros _. now exists s.
  - intro H; now contradiction H.
Qed.

Lemma findall_first_no_backslash (s : string) :
  contains "\" s = false -> findall_first number_pattern s = None.
Proof.
  induction s as [|a s IH]; intro H.
  - reflexivity.
  - apply contains_cons_false in H. destruct H as [Ha Hs].
    cbn [findall_first].
    destruct (rmatch number_pattern (String a s)) as [|m ms] eqn:Hm.
    + now apply IH.
    + destruct (rmatch_number_pattern_start (String a s)) as [rest Hrest];
        [rewrite Hm; discriminate|].
      injection Hrest as Heq _. contradiction.
Qed.

(** C2, on the code. The pattern is written with doubled backslashes in a
    raw string, so it asks for the two characters backslash and [b] around
    the number: "show me five hospitals in Delhi" is classified as a search
    in Delhi but its count is the default 3, not 5; digits are not found
    either; and every utterance without a backslash gets the count 3. *)
Theorem count_needs_backslashes :
  _extract_intent (new_memory 10) "show me five hospitals in Delhi"
  = Ok {| intent_type := "search"; intent_city := Some "Delhi";
          intent_hospital_name := None; intent_count := 3 |}
  /\ count_of (lower "show me 7 hospitals in Delhi") = 3%Z
  /\ count_of (lower "show me \bfive\b hospitals in Delhi") = 5%Z
  /\ forall q, contains "\" q = false -> count_of (lower q) = 3%Z.
Proof.
  repeat split; try reflexivity.
  intros q Hq. unfold count_of.
  now rewrite (findall_first_no_backslash _ (lower_no_backslash q Hq)).
Qed.

Lemma count_needs_backslashes_witness :
  count_of (lower "find ten hospitals near me") = 3%Z.
Proof.
  destruct count_needs_backslashes as (_ & _ & _ & Hall).
  apply (Hall "find ten hospitals near me"). reflexivity.
Defined.

(** * Properties of the search engine *)

Section SortedFacts.

Context {A : Type}.

Lemma StronglySorted_app (R : A -> A -> Prop) (l1 l2 : list A) :
  StronglySorted R l1 -> StronglySorted R l2 ->
  (forall x y, In x l1 -> In y l2 -> R x y) ->
  StronglySorted R (l1 ++ l2)%list.
Proof.
  induction l1 as [|a l1 IH]; intros H1 H2 H12; [exact H2|].
  simpl. inversion H1 as [|? ? Hs Hall]; subst.
  constructor.
  - apply IH; [assumption | assumption |].
    intros x y Hx Hy. apply H12; [now right | assumption].
  - apply Forall_app. split; [assumption|].
    apply Forall_forall. intros y Hy. apply H12; [now left | assumption].
Qed.

Lemma StronglySorted_rev (R : A -> A -> Prop) (l : list A) :
  StronglySorted R l -> StronglySorted (fun x y => R y x) (rev l).
Proof.
  induction 1 as [|a l Hs IH Hall]; [constructor|].
  simpl. apply StronglySorted_app.
  - exact IH.
  - repeat constructor.
  - intros x y Hx [<-|[]]. apply in_rev in Hx.
    rewrite Forall_forall in Hall. now apply Hall.
Qed.

Lemma StronglySorted_weaken (R R' : A -> A -> Prop) (l : list A) :
  (forall x y, R x y -> R' x y) -> StronglySorted R l -> StronglySorted R' l.
Proof.
  intros HR. induction 1 as [|a l Hs IH Hall]; constructor; [exact IH|].
  eapply Forall_impl; [|exact Hall]. intros y Hy. now apply HR.
Qed.

Lemma StronglySorted_firstn (R : A -> A -> Prop) (n : nat) (l : list A) :
  StronglySorted R l -> StronglySorted R (firstn n l).
Proof.
  intro H. revert n; induction H as [|a l Hs IH Hall]; intro n.
  - rewrite firstn_nil. constructor.
  - destruct n as [|n]; [constructor|]. simpl. constructor; [apply IH|].
    rewrite Forall_forall in *. intros x Hx. apply Hall.
    rewrite <- (firstn_skipn n l). apply in_or_app. now left.
Qed.

Lemma StronglySorted_filter (R : A -> A -> Prop) (f : A -> bool) (l : list A) :
  StronglySorted R l -> StronglySorted R (filter f l).
Proof.
  induction 1 as [|a l Hs IH Hall]; [constructor|].
  simpl. destruct (f a); [|exact IH]. constructor; [exact IH|].
  rewrite Forall_forall in *. intros x Hx. apply filter_In in Hx.
  now apply Hall.
Qed.

Lemma StronglySorted_map {B : Type} (R : B -> B -> Prop) (g : A -> B)
    (l : list A) :
  StronglySorted (fun x y => R (g x) (g y)) l -> StronglySorted R (map g l).
Proof.
  induction 1 as [|a l Hs IH Hall]; [constructor|].
  simpl. constructor; [exact IH|].
  rewrite Forall_forall in *. intros y Hy. apply in_map_iff in Hy.
  destruct Hy as (x & <- & Hx). now apply Hall.
Qed.

Lemma slice_to_prefix (k : Z) (l : list A) :
  exists n, slice_to k l = firstn n l.
Proof.
  unfold slice_to. destruct (0 <=? k)%Z; eexists; reflexivity.
Qed.

Lemma slice_to_length (k : Z) (l : list A) :
  (0 <= k)%Z -> (Z.of_nat (List.length (slice_to k l)) <= k)%Z.
Proof.
  intro Hk. unfold slice_to.
  destruct (Z.leb_spec 0 k) as [_|Hneg]; [|lia].
  rewrite length_firstn. lia.
Qed.

Lemma slice_to_nonneg (k : Z) (l : list A) :
  (0 <= k)%Z -> slice_to k l = firstn (Z.to_nat k) l.
Proof.
  intro Hk. unfold slice_to. destruct (Z.leb_spec 0 k); [reflexivity | lia].
Qed.

End SortedFacts.

Section EngineFacts.

Variable argsort : list Q -> list nat.
Variable l2norm : list Q -> Q.

Lemma getitem_nth {A} (l : list A) (i : nat) (x d : A) :
  getitem l i = Ok x -> nth i l d = x.
Proof.
  unfold getitem. destruct (nth_error l i) as [y|] eqn:H; [|discriminate].
  intros [= <-]. now apply nth_error_nth.
Qed.

(** A run of the loop that does not raise appends, in the order of the
    indices, the entries of the indices that pass the test. *)
Lemma collect_spec (self : HospitalRAG) (sims : list Q) (thr : Q)
    (idxs : list nat) (acc hs : list Hospital) :
  collect self sims thr idxs acc = Ok hs ->
  hs = (acc ++ map (entry_at self sims) (filter (kept self sims thr) idxs))%list.
Proof.
  revert acc; induction idxs as [|idx idxs IH]; intros acc H.
  - simpl in H. injection H as <-. simpl. now rewrite app_nil_r.
  - cbn [collect] in H. cbn [filter]. unfold kept at 1.
    destruct (idx <? List.length (metadata self)); cbn [andb];
      [|now apply IH].
    destruct (getitem sims idx) as [s|e] eqn:Hs; [|discriminate].
    cbn [bind] in H. rewrite (getitem_nth sims idx s 0%Q Hs).
    destruct (Qle_bool thr s); [|now apply IH].
    destruct (getitem (metadata self) idx) as [meta|e] eqn:Hm; [|discriminate].
    destruct (getitem (documents self) idx) as [doc|e] eqn:Hd; [|discriminate].
    cbn [bind] in H. apply IH in H. rewrite H, <- app_assoc. cbn [map app].
    unfold entry_at at 2.
    rewrite (getitem_nth _ _ _ default_meta Hm), (getitem_nth _ _ _ "" Hd),
      (getitem_nth sims idx s 0%Q Hs).
    reflexivity.
Qed.

(** [search_hospitals] returns the empty list, or the entries of the kept
    indices among the first [k] of the reversed argsort. *)
Lemma search_hospitals_cases (self : HospitalRAG) (q : string) (k : Z) (thr : Q) :
  search_hospitals argsort l2norm self q k thr = Ok []
  \/ exists v matrix qv sims,
       vectorizer self = Some v /\ tfidf_matrix self = Some matrix
       /\ transform v q = Ok qv
       /\ cosine_similarity l2norm qv matrix = Ok sims
       /\ search_hospitals argsort l2norm self q k thr
          = Ok (map (entry_at self sims)
                  (filter (kept self sims thr)
                     (slice_to k (rev (argsort sims))))).
Proof.
  unfold search_hospitals.
  destruct (vectorizer self) as [v|] eqn:Hv; [|now left].
  destruct (tfidf_matrix self) as [matrix|] eqn:Hm; [|now left].
  destruct (transform v q) as [qv|e] eqn:Hq; [|now left].
  cbn [bind].
  destruct (cosine_similarity l2norm qv matrix) as [sims|e] eqn:Hc; [|now left].
  cbn [bind].
  destruct (collect self sims thr (slice_to k (rev (argsort sims))) [])
    as [hs|e] eqn:Hcol; [|now left].
  right. exists v, matrix, qv, sims. repeat split; try assumption.
  cbn [try_except]. now rewrite (collect_spec _ _ _ _ _ _ Hcol).
Qed.

Lemma search_hospitals_ok (self : HospitalRAG) (q : string) (k : Z) (thr : Q) :
  exists hs, search_hospitals argsort l2norm self q k thr = Ok hs.
Proof.
  destruct (search_hospitals_cases self q k thr)
    as [H|(v & matrix & qv & sims & _ & _ & _ & _ & H)];
    rewrite H; eexists; reflexivity.
Qed.

Lemma search_hospitals_length (self : HospitalRAG) (q : string) (k : Z)
    (thr : Q) (hs : list Hospital) :
  (0 <= k)%Z -> search_hospitals argsort l2norm self q k thr = Ok hs ->
  (Z.of_nat (List.length hs) <= k)%Z.
Proof.
  intros Hk H.
  destruct (search_hospitals_cases self q k thr)
    as [H0|(v & matrix & qv & sims & _ & _ & _ & _ & H1)].
  - rewrite H0 in H. injection H as <-. simpl. lia.
  - rewrite H1 in H. injection H as <-. rewrite length_map.
    pose proof (filter_length_le (kept self sims thr)
                  (slice_to k (rev (argsort sims)))).
    pose proof (slice_to_length k (rev (argsort sims)) Hk). lia.
Qed.

Lemma kept_threshold (self : HospitalRAG) (sims : list Q) (thr : Q) (idx : nat) :
  kept self sims thr idx = true -> (thr <= score (entry_at self sims idx))%Q.
Proof.
  unfold kept. intro H. apply andb_prop in H. destruct H as [_ H].
  now apply Qle_bool_iff in H.
Qed.

(** C1, amended. When [argsort] returns indices in ascending order of
    score, [search_hospitals] returns a list that has at most [k] entries
    for a non-negative [k], is in descending order of score and holds only
    scores at or above the threshold.  Entries of equal score are in the
    order the reversed argsort gives them: when [argsort] is stable, in
    descending order of catalogue index. *)
Theorem search_hospitals_ranked (self : HospitalRAG) (q : string) (k : Z)
    (thr : Q) :
  (forall s, StronglySorted (fun i j => nth i s 0 <= nth j s 0)%Q (argsort s)) ->
  exists (sims : list Q) (idxs : list nat) (hs : list Hospital),
    search_hospitals argsort l2norm self q k thr = Ok hs
    /\ hs = map (entry_at self sims) idxs
    /\ ((0 <= k)%Z -> (Z.of_nat (List.length hs) <= k)%Z)
    /\ StronglySorted (fun a b => score b <= score a)%Q hs
    /\ Forall (fun h => thr <= score h)%Q hs
    /\ ((forall s, StronglySorted
                     (fun i j => (nth i s 0 == nth j s 0)%Q -> i < j)
                     (argsort s)) ->
        StronglySorted
          (fun i j =>
             (score (entry_at self sims i) == score (entry_at self sims j))%Q
             -> j < i)
          idxs).
Proof.
  intro Hsorted.
  destruct (search_hospitals_cases self q k thr)
    as [H0|(v & matrix & qv & sims & _ & _ & _ & _ & H1)].
  - exists [], [], []. rewrite H0.
    split; [reflexivity|]. split; [reflexivity|].
    split; [intro Hk; exact Hk|].
    split; [constructor|]. split; [constructor|]. intros _. constructor.
  - exists sims, (filter (kept self sims thr) (slice_to k (rev (argsort sims)))),
      (map (entry_at self sims)
         (filter (kept self sims thr) (slice_to k (rev (argsort sims))))).
    split; [exact H1|]. split; [reflexivity|].
    destruct (slice_to_prefix k (rev (argsort sims))) as [n Hn].
    split; [|split; [|split]].
    + intro Hk. rewrite length_map.
      pose proof (filter_length_le (kept self sims thr)
                    (slice_to k (rev (argsort sims)))).
      pose proof (slice_to_length k (rev (argsort sims)) Hk). lia.
    + apply StronglySorted_map, StronglySorted_filter. rewrite Hn.
      apply StronglySorted_firstn.
      apply (StronglySorted_rev (fun i j => nth i sims 0 <= nth j sims 0)%Q).
      apply Hsorted.
    + apply Forall_map, Forall_forall. intros idx Hidx.
      apply filter_In in Hidx. now apply kept_threshold.
    + intro Hstable. apply StronglySorted_filter. rewrite Hn.
      apply StronglySorted_firstn.
      apply (StronglySorted_weaken
               (fun i j => (nth j sims 0 == nth i sims 0)%Q -> j < i)).
      * intros i j Hij Heq. apply Hij. simpl in Heq. now symmetry.
      * apply (StronglySorted_rev
                 (fun i j => (nth i sims 0 == nth j sims 0)%Q -> i < j)).
        apply Hstable.
Qed.

End EngineFacts.

(** ** The insertion argsort is ascending and stable *)

Lemma insert_index_In (s : list Q) (i x : nat) (l : list nat) :
  In x (insert_index s i l) <-> x = i \/ In x l.
Proof.
  induction l as [|j l IH]; simpl.
  - intuition.
  - destruct (Qle_bool (nth i s 0%Q) (nth j s 0%Q)); simpl; [intuition|].
    rewrite IH. intuition.
Qed.

Lemma insertion_In (s : list Q) (x : nat) (idxs : list nat) :
  In x (fold_right (insert_index s) [] idxs) <-> In x idxs.
Proof.
  induction idxs as [|i idxs IH]; simpl; [tauto|].
  rewrite insert_index_In, IH. intuition.
Qed.

Lemma insert_index_sorted (s : list Q) (i : nat) (l : list nat) :
  StronglySorted (fun a b => nth a s 0 <= nth b s 0)%Q l ->
  StronglySorted (fun a b => nth a s 0 <= nth b s 0)%Q (insert_index s i l).
Proof.
  induction 1 as [|j l Hs IH Hall]; simpl; [repeat constructor|].
  destruct (Qle_bool (nth i s 0%Q) (nth j s 0%Q)) eqn:Hle.
  - apply Qle_bool_iff in Hle. constructor; [now constructor|].
    constructor; [exact Hle|].
    eapply Forall_impl; [|exact Hall]. intros x Hx.
    now apply Qle_trans with (nth j s 0%Q).
  - assert (Hji : (nth j s 0 <= nth i s 0)%Q).
    { apply Qlt_le_weak, Qnot_le_lt. intro H.
      apply Qle_bool_iff in H. congruence. }
    constructor; [exact IH|].
    apply Forall_forall. intros x Hx. apply insert_index_In in Hx.
    destruct Hx as [->|Hx]; [exact Hji|].
    rewrite Forall_forall in Hall. now apply Hall.
Qed.

Lemma argsort_insertion_sorted (s : list Q) :
  StronglySorted (fun i j => nth i s 0 <= nth j s 0)%Q (argsort_insertion s).
Proof.
  unfold argsort_insertion.
  induction (seq 0 (List.length s)) as [|i idxs IH]; simpl; [constructor|].
  now apply insert_index_sorted.
Qed.

Lemma insert_index_stable (s : list Q) (i : nat) (l : list nat) :
  Forall (fun j => i < j) l ->
  StronglySorted (fun a b => (nth a s 0 == nth b s 0)%Q -> a < b) l ->
  StronglySorted (fun a b => (nth a s 0 == nth b s 0)%Q -> a < b)
    (insert_index s i l).
Proof.
  intros Hlt Hs. induction Hs as [|j l Hs IH Hall]; simpl;
    [repeat constructor|].
  inversion Hlt as [|? ? Hij Hlt']; subst.
  destruct (Qle_bool (nth i s 0%Q) (nth j s 0%Q)) eqn:Hle.
  - constructor; [now constructor|].
    eapply Forall_impl; [|exact Hlt]. intros x Hx _. exact Hx.
  - constructor; [now apply IH|].
    apply Forall_forall. intros x Hx. apply insert_index_In in Hx.
    destruct Hx as [->|Hx].
    + intro Heq. exfalso.
      assert (H : Qle_bool (nth i s 0%Q) (nth j s 0%Q) = true)
        by (apply Qle_bool_iff; rewrite Heq; apply Qle_refl).
      congruence.
    + rewrite Forall_forall in Hall. now apply Hall.
Qed.

Lemma insertion_stable_from (s : list Q) (n start : nat) :
  StronglySorted (fun a b => (nth a s 0 == nth b s 0)%Q -> a < b)
    (fold_right (insert_index s) [] (seq start n)).
Proof.
  revert start; induction n as [|n IH]; intro start; simpl; [constructor|].
  apply insert_index_stable; [|apply IH].
  apply Forall_forall. intros x Hx. apply insertion_In, in_seq in Hx. lia.
Qed.

Lemma argsort_insertion_stable (s : list Q) :
  StronglySorted (fun i j => (nth i s 0 == nth j s 0)%Q -> i < j)
    (argsort_insertion s).
Proof. apply insertion_stable_from. Qed.

Lemma search_hospitals_ranked_witness :
  exists (sims : list Q) (idxs : list nat) (hs : list Hospital),
    search_hospitals argsort_insertion l2norm_floor flat_rag "find hospital" 3
      default_threshold = Ok hs
    /\ hs = map (entry_at flat_rag sims) idxs
    /\ (Z.of_nat (List.length hs) <= 3)%Z
    /\ StronglySorted (fun a b => score b <= score a)%Q hs
    /\ Forall (fun h => default_threshold <= score h)%Q hs
    /\ StronglySorted
         (fun i j =>
            (score (entry_at flat_rag sims i)
             == score (entry_at flat_rag sims j))%Q -> j < i)
         idxs.
Proof.
  destruct (search_hospitals_ranked argsort_insertion l2norm_floor flat_rag
              "find hospital" 3 default_threshold argsort_insertion_sorted)
    as (sims & idxs & hs & Hres & Hhs & Hlen & Hdesc & Hthr & Hties).
  exists sims, idxs, hs.
  split; [exact Hres|]. split; [exact Hhs|]. split; [apply Hlen; lia|].
  split; [exact Hdesc|]. split; [exact Hthr|].
  apply Hties. exact argsort_insertion_stable.
Defined.

(** C1, as stated, fails on ties: with the stable argsort, the three
    documents of the built-in catalogue, all at score 1 for the query, are
    returned last document first. *)
Lemma ties_in_reverse_catalogue_order :
  exists hs,
    search_hospitals argsort_insertion l2norm_floor flat_rag "find hospital" 3
      default_threshold = Ok hs
    /\ map name hs = ["Fortis Hospital"; "Manipal Hospital"; "Apollo Hospital"]
    /\ Forall (fun h => score h == 1)%Q hs
    /\ map meta_name (metadata flat_rag)
       = ["Apollo Hospital"; "Manipal Hospital"; "Fortis Hospital"].
Proof.
  eexists. split; [vm_compute; reflexivity|].
  split; [reflexivity|]. split; [|reflexivity].
  repeat constructor.
Qed.

(** ** Queries outside the vocabulary *)

Section ZeroQuery.

Variable argsort : list Q -> list nat.
Variable l2norm : list Q -> Q.

Lemma dot_zero_l (u v : list Q) :
  Forall (fun x => x == 0)%Q u -> (dot u v == 0)%Q.
Proof.
  intro Hu. revert v; induction Hu as [|x u Hx Hu IH]; intro v.
  - reflexivity.
  - destruct v as [|y v]; [reflexivity|].
    unfold dot in *. simpl. rewrite (IH v), Hx. ring.
Qed.

Lemma normalize_zero (v : list Q) :
  Forall (fun x => x == 0)%Q v -> Forall (fun x => x == 0)%Q (normalize l2norm v).
Proof.
  intro Hv. unfold normalize. apply Forall_map.
  eapply Forall_impl; [|exact Hv]. intros x Hx. simpl.
  unfold Qdiv. rewrite Hx. ring.
Qed.

Lemma cosine_similarity_zero (qv : list Q) (matrix : list (list Q))
    (sims : list Q) :
  Forall (fun x => x == 0)%Q qv ->
  cosine_similarity l2norm qv matrix = Ok sims ->
  Forall (fun x => x == 0)%Q sims.
Proof.
  intros Hq. unfold cosine_similarity.
  destruct (forallb _ matrix); [|discriminate].
  intros [= <-]. apply Forall_map, Forall_forall. intros row _.
  apply dot_zero_l. now apply normalize_zero.
Qed.

Lemma kept_zero (self : HospitalRAG) (sims : list Q) (thr : Q) (idx : nat) :
  Forall (fun x => x == 0)%Q sims -> (0 < thr)%Q ->
  kept self sims thr idx = false.
Proof.
  intros Hz Hthr. unfold kept. apply andb_false_iff. right.
  destruct (Qle_bool thr (nth idx sims 0%Q)) eqn:Hle; [|reflexivity].
  apply Qle_bool_iff in Hle. exfalso.
  assert (Hn : (nth idx sims 0 == 0)%Q).
  { destruct (nth_in_or_default idx sims 0%Q) as [Hin| ->]; [|reflexivity].
    rewrite Forall_forall in Hz. now apply Hz. }
  rewrite Hn in Hle. now apply (Qlt_not_le _ _ Hthr).
Qed.

(** C8. A query whose vector under the fitted vocabulary is zero gets the
    empty list from [search_hospitals], for every positive threshold (the
    default is 0.1), every [k] and every state of the index, with no error
    raised. *)
Theorem zero_vector_query_finds_nothing (self : HospitalRAG) (q : string)
    (k : Z) (thr : Q) (v : Vectorizer) (qv : list Q) :
  vectorizer self = Some v ->
  transform v q = Ok qv ->
  Forall (fun x => x == 0)%Q qv ->
  (0 < thr)%Q ->
  search_hospitals argsort l2norm self q k thr = Ok [].
Proof.
  intros Hv Hq Hzero Hthr.
  destruct (search_hospitals_cases argsort l2norm self q k thr)
    as [H0|(v' & matrix & qv' & sims & Hv' & _ & Hq' & Hc & H1)];
    [exact H0|].
  rewrite Hv in Hv'. injection Hv' as <-.
  rewrite Hq in Hq'. injection Hq' as <-.
  pose proof (cosine_similarity_zero qv matrix sims Hzero Hc) as Hsims.
  assert (Hnone : forall idxs, filter (kept self sims thr) idxs = []).
  { induction idxs as [|idx idxs IH]; [reflexivity|].
    simpl. now rewrite (kept_zero self sims thr idx Hsims Hthr). }
  now rewrite H1, Hnone.
Qed.

End ZeroQuery.

Lemma zero_vector_query_finds_nothing_witness :
  search_hospitals argsort_insertion l2norm_floor dummy_rag
    "what is the weather" 3 default_threshold = Ok [].
Proof.
  apply (zero_vector_query_finds_nothing argsort_insertion l2norm_floor
           dummy_rag "what is the weather" 3 default_threshold
           brand_vectorizer [0; 0; 0; 0]%Q).
  - reflexivity.
  - reflexivity.
  - repeat constructor.
  - reflexivity.
Defined.

(** ** Hybrid search *)

Section HybridFacts.

Variable argsort : list Q -> list nat.
Variable l2norm : list Q -> Q.

Lemma str_in_false (x : string) (l : list string) :
  str_in x l = false -> ~ In x l.
Proof.
  unfold str_in. intros H Hin.
  assert (Ht : existsb (String.eqb x) l = true)
    by (apply existsb_exists; exists x; split; [exact Hin | apply String.eqb_refl]).
  congruence.
Qed.

(** The fallback loop only appends, and only entries whose lowercased name
    is not among the names of the exact pass. *)
Lemma extend_spec (existing : list string) (k : Z) (sem acc : list Hospital) :
  exists ext,
    extend existing k sem acc = (acc ++ ext)%list
    /\ Forall (fun r => str_in (lower (name r)) existing = false) ext.
Proof.
  revert acc; induction sem as [|r sem IH]; intro acc.
  - exists []. split; [now rewrite app_nil_r | constructor].
  - cbn [extend].
    destruct (str_in (lower (name r)) existing) eqn:Hin; cbn [negb].
    + apply IH.
    + destruct (k <=? Z.of_nat (List.length (acc ++ [r])%list))%Z.
      * exists [r]. split; [reflexivity | now repeat constructor].
      * destruct (IH (acc ++ [r])%list) as (ext & Hext & Hall).
        exists (r :: ext). split; [now rewrite Hext, <- app_assoc|].
        now constructor.
Qed.

Lemma Forall_firstn {A} (P : A -> Prop) (n : nat) (l : list A) :
  Forall P l -> Forall P (firstn n l).
Proof.
  intro H. rewrite Forall_forall in *. intros x Hx. apply H.
  rewrite <- (firstn_skipn n l). apply in_or_app. now left.
Qed.

Lemma exact_entries_high (rs : list Row) :
  Forall (fun h => score h = 1.0%Q /\ relevance h = "high") (map exact_entry rs).
Proof.
  apply Forall_map, Forall_forall. intros r _. now split.
Qed.

(** While fewer than [k] entries are held, the fallback loop appends the
    first semantic results whose lowercased name is not a name of the
    exact pass, up to [k] entries in all. *)
Lemma extend_firstn (existing : list string) (k : Z) (sem acc : list Hospital) :
  (Z.of_nat (List.length acc) < k)%Z ->
  extend existing k sem acc
  = (acc
     ++ firstn (Z.to_nat k - List.length acc)
          (filter (fun r => negb (str_in (lower (name r)) existing)) sem))%list.
Proof.
  revert acc; induction sem as [|r sem IH]; intros acc Hlt.
  - cbn [extend filter]. now rewrite firstn_nil, app_nil_r.
  - cbn [extend filter].
    destruct (str_in (lower (name r)) existing); cbn [negb]; [now apply IH|].
    destruct (Z.leb_spec k (Z.of_nat (List.length (acc ++ [r])%list)))
      as [Hle|Hgt]; rewrite length_app in *; cbn [List.length] in *.
    + replace (Z.to_nat k - List.length acc) with 1 by lia. reflexivity.
    + rewrite IH by (rewrite length_app; cbn [List.length]; lia).
      rewrite length_app. cbn [List.length].
      replace (Z.to_nat k - List.length acc)
        with (S (Z.to_nat k - (List.length acc + 1))) by lia.
      cbn [firstn]. now rewrite <- app_assoc.
Qed.

(** C6, amended. For a non-negative [k], [search_by_name_and_city]
    returns at most [k] entries.  Against a text data frame the result is
    the exact pass followed by the fallback: the exact pass is made of the
    first [k] rows that match, in catalogue order, each with the name,
    address and city of its row, score 1.0 and relevance "high"; the
    fallback is made of the first results of [search_hospitals] on the
    synthesized phrase whose lowercased name is not the lowercased name of
    an exact entry, as many as are needed to reach [k].  When the text
    accessor raises the result is that of [search_hospitals] alone, and
    without a data frame it is empty. *)
Theorem search_by_name_and_city_hybrid (self : HospitalRAG) (nm : string)
    (cty : option string) (k : Z) :
  (0 <= k)%Z ->
  let matched :=
    match hospitals_df self with
    | Some df =>
        if str_columns df
        then firstn (Z.to_nat k) (filter (row_matches nm cty) (rows df))
        else []
    | None => []
    end in
  let exact := map exact_entry matched in
  let first_names := map (fun e => lower (name e)) exact in
  exists sem : list Hospital,
    let fallback :=
      match hospitals_df self with
      | Some df =>
          if str_columns df
          then firstn (Z.to_nat k - List.length exact)
                 (filter (fun r => negb (str_in (lower (name r)) first_names))
                    sem)
          else sem
      | None => []
      end in
    search_hospitals argsort l2norm self (fallback_query nm cty) k
      default_threshold = Ok sem
    /\ search_by_name_and_city argsort l2norm self nm cty k
       = Ok (exact ++ fallback)%list
    /\ (Z.of_nat (List.length (exact ++ fallback)%list) <= k)%Z
    /\ Forall (fun h => score h = 1.0%Q /\ relevance h = "high") exact
    /\ map name exact = map hospital_name matched
    /\ map address exact = map row_address matched
    /\ map city exact = map row_city matched
    /\ Forall (fun h => ~ In (lower (name h)) first_names) fallback.
Proof.
  intros Hk matched exact first_names.
  destruct (search_hospitals_ok argsort l2norm self (fallback_query nm cty) k
              default_threshold) as [sem Hsem].
  pose proof (search_hospitals_length argsort l2norm self _ k _ sem Hk Hsem)
    as Hsemlen.
  exists sem. cbv zeta. split; [exact Hsem|].
  assert (Hfields :
    map name exact = map hospital_name matched
    /\ map address exact = map row_address matched
    /\ map city exact = map row_city matched).
  { unfold exact. rewrite !map_map. repeat split. }
  unfold search_by_name_and_city, exact_rows.
  unfold first_names, exact, matched in *. clear first_names exact matched.
  destruct (hospitals_df self) as [df|].
  2:{ simpl. repeat split; try constructor. exact Hk. }
  destruct (str_columns df).
  2:{ cbn [bind try_except map app]. rewrite Hsem.
      split; [reflexivity|]. split; [exact Hsemlen|].
      split; [constructor|]. split; [reflexivity|]. split; [reflexivity|].
      split; [reflexivity|]. apply Forall_forall. intros h _ []. }
  cbn [bind]. rewrite Hsem. cbn [bind].
  set (tr := filter (row_matches nm cty) (rows df)) in *.
  rewrite (slice_to_nonneg k tr Hk).
  set (hs := map exact_entry (firstn (Z.to_nat k) tr)) in *.
  assert (Hhs : List.length hs <= Z.to_nat k)
    by (unfold hs; rewrite length_map, length_firstn; lia).
  set (keep := fun r : Hospital =>
                 negb (str_in (lower (name r))
                         (map (fun e => lower (name e)) hs))).
  assert (Hdistinct :
    Forall (fun h => ~ In (lower (name h)) (map (fun e => lower (name e)) hs))
      (firstn (Z.to_nat k - List.length hs) (filter keep sem))).
  { apply Forall_firstn, Forall_forall. intros h Hh.
    apply filter_In in Hh. destruct Hh as [_ Hh]. unfold keep in Hh.
    apply negb_true_iff in Hh. now apply str_in_false. }
  destruct (Z.ltb_spec (Z.of_nat (List.length hs)) k) as [Hlt|Hge].
  - cbn [bind try_except].
    rewrite (extend_firstn _ k sem hs Hlt), (slice_to_nonneg k _ Hk).
    fold keep.
    rewrite firstn_app, (firstn_all2 hs) by exact Hhs.
    rewrite firstn_firstn, Nat.min_id.
    split; [reflexivity|]. split.
    + rewrite length_app, length_firstn. lia.
    + split; [apply exact_entries_high|]. tauto.
  - cbn [bind try_except].
    rewrite (slice_to_nonneg k _ Hk), (firstn_all2 hs) by exact Hhs.
    replace (Z.to_nat k - List.length hs) with 0 by lia.
    cbn [firstn]. rewrite app_nil_r. split; [reflexivity|].
    split; [lia|]. split; [apply exact_entries_high|].
    repeat split; try apply Hfields. constructor.
Qed.

Lemma search_by_name_and_city_ok (self : HospitalRAG) (nm : string)
    (cty : option string) (k : Z) :
  exists hs, search_by_name_and_city argsort l2norm self nm cty k = Ok hs.
Proof.
  unfold search_by_name_and_city.
  destruct (hospitals_df self) as [df|]; [|now exists []].
  destruct (search_hospitals_ok argsort l2norm self (fallback_query nm cty) k
              default_threshold) as [sem Hsem].
  rewrite Hsem.
  destruct (exact_rows df nm cty) as [tr|e]; cbn [bind try_except];
    [|now exists sem].
  destruct (_ <? k)%Z; cbn [bind try_except]; eexists; reflexivity.
Qed.

End HybridFacts.

Lemma search_by_name_and_city_hybrid_witness :
  let matched :=
    firstn (Z.to_nat 3)
      (filter (row_matches "apollo" (Some "Bangalore")) dummy_rows) in
  let exact := map exact_entry matched in
  let first_names := map (fun e => lower (name e)) exact in
  exists sem : list Hospital,
    let fallback :=
      firstn (Z.to_nat 3 - List.length exact)
        (filter (fun r => negb (str_in (lower (name r)) first_names)) sem) in
    search_hospitals argsort_insertion l2norm_floor dummy_rag
      (fallback_query "apollo" (Some "Bangalore")) 3 default_threshold
    = Ok sem
    /\ search_by_name_and_city argsort_insertion l2norm_floor dummy_rag
         "apollo" (Some "Bangalore") 3
       = Ok (exact ++ fallback)%list
    /\ (Z.of_nat (List.length (exact ++ fallback)%list) <= 3)%Z
    /\ Forall (fun h => score h = 1.0%Q /\ relevance h = "high") exact
    /\ map name exact = map hospital_name matched
    /\ map address exact = map row_address matched
    /\ map city exact = map row_city matched
    /\ Forall (fun h => ~ In (lower (name h)) first_names) fallback.
Proof.
  apply (search_by_name_and_city_hybrid argsort_insertion l2norm_floor
           dummy_rag "apollo" (Some "Bangalore") 3).
  lia.
Defined.

(** C6, as stated, fails for a negative [k]: [head(k)] and [[:k]] then
    count from the end, and of the three rows of the built-in catalogue
    that match "hospital" one is returned for [k = -1]. *)
Lemma negative_k_exceeds_bound :
  exists hs,
    search_by_name_and_city argsort_insertion l2norm_floor dummy_rag
      "hospital" None (-1) = Ok hs
    /\ map name hs = ["Apollo Hospital"]
    /\ ~ (Z.of_nat (List.length hs) <= -1)%Z.
Proof.
  eexists. split; [vm_compute; reflexivity|].
  split; [reflexivity|]. simpl. lia.
Qed.

(** * Properties of the agent *)

Section AgentFacts.

Variable list_set : list string -> list string.
Variable argsort : list Q -> list nat.
Variable l2norm : list Q -> Q.
Variable chat : nat -> string -> string -> result string.

(** After two failed attempts, a third answer that is refused leads to the
    fallback sentence, recorded in memory. *)
Lemma generate_rejected (self : LoopAIAgent) (intro q prompt : string)
    (hs : list Hospital) :
  failed (chat 1 (system_prompt self) prompt) ->
  failed (chat 2 (system_prompt self) prompt) ->
  rejected (chat 3 (system_prompt self) prompt) ->
  generate list_set chat self intro q prompt hs (seq 1 3)
  = (record_turn list_set self q (fallback_answer hs) hs,
     Ok (intro ++ fallback_answer hs)).
Proof.
  intros H1 H2 (c3 & E3 & A3). cbn [seq generate].
  destruct H1 as [(c1 & -> & ->)|(e1 & ->)];
    destruct H2 as [(c2 & -> & ->)|(e2 & ->)];
    cbn [Nat.eqb]; now rewrite E3, A3.
Qed.

(** After two failed attempts, an exception in the third attempt leaves
    the loop, with the memory untouched. *)
Lemma generate_raised (self : LoopAIAgent) (intro q prompt : string)
    (hs : list Hospital) (e : exn) :
  failed (chat 1 (system_prompt self) prompt) ->
  failed (chat 2 (system_prompt self) prompt) ->
  chat 3 (system_prompt self) prompt = Raise e ->
  generate list_set chat self intro q prompt hs (seq 1 3) = (self, Raise e).
Proof.
  intros H1 H2 E3. cbn [seq generate].
  destruct H1 as [(c1 & -> & ->)|(e1 & ->)];
    destruct H2 as [(c2 & -> & ->)|(e2 & ->)];
    cbn [Nat.eqb]; now rewrite E3.
Qed.

(** [process_query] past the greeting and the relevance filter. *)
Lemma process_query_body_generate (self : LoopAIAgent) (q : string)
    (first : bool) (it : Intent) (hs : list Hospital) :
  greeted self q first = false ->
  _is_hospital_related q = true ->
  _extract_intent (memory self) q = Ok it ->
  retrieve argsort l2norm self q it = Ok hs ->
  exists self1 prompt,
    memory self1 = memory self
    /\ system_prompt self1 = system_prompt self
    /\ process_query_body list_set argsort l2norm chat self q first
       = generate list_set chat self1 (intro_of self first) q prompt hs (seq 1 3).
Proof.
  intros Hg Hrel Hit Hhs. unfold process_query_body, greeted, intro_of in *.
  set (started := first || negb (session_started self)) in *.
  set (self1 :=
         if started then
           {| rag_engine := rag_engine self; memory := memory self;
              session_started := true; system_prompt := system_prompt self;
              greeting_message := greeting_message self |}
         else self).
  assert (Hmem : memory self1 = memory self)
    by (unfold self1; now destruct started).
  assert (Hsys : system_prompt self1 = system_prompt self)
    by (unfold self1; now destruct started).
  assert (Hret : retrieve argsort l2norm self1 q it
                 = retrieve argsort l2norm self q it)
    by (unfold self1; now destruct started).
  rewrite Hg, Hrel. cbn [negb]. rewrite Hmem, Hit, Hret, Hhs.
  eexists self1, _. repeat split; assumption || reflexivity.
Qed.

(** C4, amended. When the first two attempts fail (an answer refused by
    the quality check, or an exception) and the third answer is refused,
    [process_query] returns, after the introduction on the first turn of a
    session, the sentence "I found N hospitals: " followed by the names of
    up to three results (no cities) and a full stop, or the not-found
    sentence when there are no results, and records that turn in memory.
    When the third attempt raises instead, it returns the generic trouble
    sentence and records nothing. *)
Theorem fallback_after_failed_attempts (self : LoopAIAgent) (q : string)
    (first : bool) (it : Intent) (hs : list Hospital) :
  greeted self q first = false ->
  _is_hospital_related q = true ->
  _extract_intent (memory self) q = Ok it ->
  retrieve argsort l2norm self q it = Ok hs ->
  (forall sp p, failed (chat 1 sp p)) ->
  (forall sp p, failed (chat 2 sp p)) ->
  let r := process_query list_set argsort l2norm chat self q first in
  let answer :=
    match hs with
    | [] => "I couldn't find that hospital. Could you provide more details?"
    | _ :: _ =>
        "I found " ++ str_of_nat (List.length hs) ++ " hospitals: "
        ++ join ", " (map name (firstn 3 hs)) ++ "."
    end in
  ((forall sp p, rejected (chat 3 sp p)) ->
   snd r = Ok (intro_of self first ++ answer)
   /\ memory (fst r) = add_interaction list_set (memory self) q answer hs)
  /\ ((forall sp p, raised (chat 3 sp p)) ->
      snd r = Ok trouble_message /\ memory (fst r) = memory self).
Proof.
  intros Hg Hrel Hit Hhs H1 H2 r answer.
  destruct (process_query_body_generate self q first it hs Hg Hrel Hit Hhs)
    as (self1 & prompt & Hmem & Hsys & Hbody).
  assert (Hans : answer = fallback_answer hs) by (now destruct hs).
  unfold r, process_query. rewrite Hbody. split.
  - intro H3.
    rewrite (generate_rejected self1 _ q prompt hs (H1 _ _) (H2 _ _) (H3 _ _)).
    cbn [fst snd record_turn memory]. now rewrite Hmem, Hans.
  - intro H3. destruct (H3 (system_prompt self1) prompt) as [e He].
    rewrite (generate_raised self1 _ q prompt hs e (H1 _ _) (H2 _ _) He).
    cbn [fst snd]. now split.
Qed.

(** C5. Whatever the vectorizer, the similarity computation, the data
    frame and the language model do, including raising,
    [search_hospitals], [search_by_name_and_city] and [process_query] each
    return a value and no exception. *)
Theorem no_exception_escapes (self : LoopAIAgent) (rag : HospitalRAG)
    (q nm : string) (cty : option string) (k : Z) (thr : Q) (first : bool) :
  (exists hs, search_hospitals argsort l2norm rag q k thr = Ok hs)
  /\ (exists hs, search_by_name_and_city argsort l2norm rag nm cty k = Ok hs)
  /\ (exists answer,
        snd (process_query list_set argsort l2norm chat self q first)
        = Ok answer).
Proof.
  split; [apply search_hospitals_ok|].
  split; [apply search_by_name_and_city_ok|].
  unfold process_query.
  destruct (process_query_body list_set argsort l2norm chat self q first)
    as [self' [answer|e]]; eexists; reflexivity.
Qed.

End AgentFacts.

Lemma chat_terse_rejected (attempt : nat) (sp p : string) :
  rejected (chat_terse attempt sp p).
Proof. exists "Yes.". now split. Qed.

Lemma chat_down_raised (attempt : nat) (sp p : string) :
  raised (chat_down attempt sp p).
Proof. now exists (RuntimeError "connection refused"). Qed.

Lemma fallback_after_failed_attempts_witness :
  let r :=
    process_query distinct_order argsort_insertion l2norm_floor chat_terse
      (fresh_agent dummy_rag) "is apollo in bangalore" false in
  snd r
  = Ok ("Hello! I'm Loop AI Health Assistant. "
        ++ "I found 1 hospitals: Apollo Hospital.")
  /\ memory (fst r)
     = add_interaction distinct_order (new_memory 10)
         "is apollo in bangalore" "I found 1 hospitals: Apollo Hospital."
         [exact_entry {| hospital_name := "Apollo Hospital";
                         row_address := "123 Main St";
                         row_city := "Bangalore" |}].
Proof.
  destruct (fallback_after_failed_attempts distinct_order argsort_insertion
              l2norm_floor chat_terse (fresh_agent dummy_rag)
              "is apollo in bangalore" false
              {| intent_type := "confirmation";
                 intent_city := Some "Bangalore";
                 intent_hospital_name := Some "apollo"; intent_count := 3 |}
              [exact_entry {| hospital_name := "Apollo Hospital";
                              row_address := "123 Main St";
                              row_city := "Bangalore" |}])
    as [Hrejected _].
  - reflexivity.
  - reflexivity.
  - reflexivity.
  - reflexivity.
  - intros sp p. left. apply chat_terse_rejected.
  - intros sp p. left. apply chat_terse_rejected.
  - apply Hrejected. intros sp p. apply chat_terse_rejected.
Defined.

(** C4, as stated, fails: when every attempt raises, the caller gets the
    generic trouble sentence and no turn is recorded; and when every answer
    is refused, the fallback sentence names the hospitals without their
    cities. *)
Lemma fallback_not_always_recorded :
  let down :=
    process_query distinct_order argsort_insertion l2norm_floor chat_down
      (fresh_agent flat_rag) "find hospital in delhi" false in
  let terse :=
    process_query distinct_order argsort_insertion l2norm_floor chat_terse
      (fresh_agent flat_rag) "find hospital in delhi" false in
  (forall attempt sp p, raised (chat_down attempt sp p))
  /\ snd down = Ok trouble_message
  /\ history (memory (fst down)) = []
  /\ (forall attempt sp p, rejected (chat_terse attempt sp p))
  /\ snd terse
     = Ok ("Hello! I'm Loop AI Health Assistant. I found 3 hospitals: "
           ++ "Fortis Hospital, Manipal Hospital, Apollo Hospital.")
  /\ map city (flat_map hospitals (history (memory (fst terse))))
     = ["Delhi"; "Bangalore"; "Bangalore"]
  /\ match snd terse with
     | Ok sentence =>
         contains "Delhi" sentence = false
         /\ contains "Bangalore" sentence = false
     | Raise _ => False
     end.
Proof.
  split; [exact chat_down_raised|].
  split; [reflexivity|]. split; [reflexivity|].
  split; [exact chat_terse_rejected|].
  split; [reflexivity|]. split; [reflexivity|].
  vm_compute. now split.
Qed.

(** * Further properties *)

(** ** Strings *)

Lemma append_nil_r (s : string) : s ++ "" = s.
Proof. induction s as [|c s IH]; simpl; [reflexivity | now rewrite IH]. Qed.

Lemma append_assoc (a b c : string) : (a ++ b) ++ c = a ++ b ++ c.
Proof. induction a as [|x a IH]; simpl; [reflexivity | now rewrite IH]. Qed.

Lemma lower_append (a b : string) : lower (a ++ b) = lower a ++ lower b.
Proof. induction a as [|x a IH]; simpl; [reflexivity | now rewrite IH]. Qed.

Lemma startswith_iff (s p : string) :
  startswith s p = true <-> exists post, s = p ++ post.
Proof.
  revert s; induction p as [|a p IH]; intro s.
  - destruct s; simpl; (split; [intros _; eexists; reflexivity | reflexivity]).
  - destruct s as [|b s]; cbn [startswith].
    + split; [discriminate | intros [post H]; discriminate H].
    + rewrite andb_true_iff, IH. split.
      * intros [Hab [post ->]]. apply Ascii.eqb_eq in Hab. subst.
        now exists post.
      * intros [post H]. injection H as -> ->. split.
        -- apply Ascii.eqb_refl.
        -- now exists post.
Qed.

(** [contains] is the substring test. *)
Lemma contains_iff (sub s : string) :
  contains sub s = true <-> exists pre post, s = pre ++ sub ++ post.
Proof.
  split.
  - induction s as [|c s IH]; cbn [contains]; intro H.
    + rewrite orb_false_r in H. apply startswith_iff in H.
      destruct H as [post ->]. now exists "", post.
    + apply orb_true_iff in H. destruct H as [H|H].
      * apply startswith_iff in H. destruct H as [post ->]. now exists "", post.
      * destruct (IH H) as (pre & post & ->). now exists (String c pre), post.
  - intros (pre & post & ->). induction pre as [|c pre IH].
    + simpl append.
      assert (H : startswith (sub ++ post) sub = true)
        by (apply startswith_iff; now exists post).
      destruct (sub ++ post); cbn [contains]; now rewrite H.
    + simpl append. cbn [contains]. rewrite IH. apply orb_true_r.
Qed.

Lemma contains_trans (a b s : string) :
  contains a b = true -> contains b s = true -> contains a s = true.
Proof.
  rewrite !contains_iff. intros (p1 & q1 & ->) (p2 & q2 & ->).
  exists (p2 ++ p1), (q1 ++ q2). now rewrite !append_assoc.
Qed.

Lemma contains_context (w s pre post : string) :
  contains w s = true -> contains w (pre ++ s ++ post) = true.
Proof.
  rewrite !contains_iff. intros (p & q & ->).
  exists (pre ++ p), (q ++ post). now rewrite !append_assoc.
Qed.

Lemma any_in_exists (ws : list string) (s : string) :
  any_in ws s = true <-> exists w, In w ws /\ contains w s = true.
Proof. unfold any_in. apply existsb_exists. Qed.

Lemma any_in_false (ws : list string) (s w : string) :
  any_in ws s = false -> In w ws -> contains w s = false.
Proof.
  intros H Hin. destruct (contains w s) eqn:Hc; [|reflexivity].
  assert (Ht : any_in ws s = true) by (apply any_in_exists; now exists w).
  congruence.
Qed.

(** ** White space around a string *)

Lemma lstrip_decompose (s : string) :
  exists pre, s = pre ++ lstrip s /\ all_space pre = true.
Proof.
  induction s as [|c s IH]; [now exists ""|].
  cbn [lstrip]. destruct (is_space c) eqn:Hc.
  - destruct IH as (pre & Hs & Hpre). exists (String c pre). split.
    + simpl. now rewrite <- Hs.
    + simpl. now rewrite Hc.
  - now exists "".
Qed.

Lemma rstrip_decompose (s : string) :
  exists post, s = rstrip s ++ post /\ all_space post = true.
Proof.
  induction s as [|c s IH]; [now exists ""|].
  destruct IH as (post & Hs & Hpost). cbn [rstrip].
  destruct (rstrip s) as [|a r] eqn:Hr.
  - simpl in Hs. subst post. destruct (is_space c) eqn:Hc.
    + exists (String c s). split; [reflexivity|]. simpl. now rewrite Hc.
    + now exists s.
  - exists post. split; [|exact Hpost]. simpl. now rewrite Hs at 1.
Qed.

(** [strip] removes white space at both ends and nothing else. *)
Lemma strip_decompose (s : string) :
  exists pre post,
    s = pre ++ strip s ++ post
    /\ all_space pre = true /\ all_space post = true.
Proof.
  destruct (lstrip_decompose s) as (pre & Hs & Hpre).
  destruct (rstrip_decompose (lstrip s)) as (post & Hl & Hpost).
  exists pre, post. unfold strip. now rewrite <- Hl.
Qed.

Lemma is_space_lower (c : ascii) : is_space (lower_ascii c) = is_space c.
Proof.
  destruct c as [[] [] [] [] [] [] [] []]; reflexivity.
Qed.

Lemma all_space_lower (s : string) : all_space (lower s) = all_space s.
Proof.
  induction s as [|c s IH]; [reflexivity|].
  simpl. now rewrite is_space_lower, IH.
Qed.

Lemma all_space_append (a b : string) :
  all_space (a ++ b) = all_space a && all_space b.
Proof.
  induction a as [|c a IH]; [reflexivity|].
  simpl. now rewrite IH, andb_assoc.
Qed.

Lemma no_space_all_space (k : string) :
  no_space k = true -> all_space k = true -> k = "".
Proof.
  destruct k as [|c k]; [reflexivity|]. simpl.
  destruct (is_space c); discriminate.
Qed.

(** A word without white space that starts a text padded with white space
    on the right starts the text itself. *)
Lemma prefix_before_padding (k w post b : string) :
  no_space k = true -> all_space post = true ->
  w ++ post = k ++ b -> exists b', w = k ++ b'.
Proof.
  revert w; induction k as [|c k IH]; intros w Hk Hpost H.
  - now exists w.
  - simpl in Hk. apply andb_prop in Hk. destruct Hk as [Hc Hk].
    destruct w as [|a w].
    + simpl in H. subst post. simpl in Hpost.
      destruct (is_space c); discriminate.
    + simpl in H. injection H as -> H.
      destruct (IH w Hk Hpost H) as [b' ->]. now exists b'.
Qed.

Lemma inside_before_padding (a k w post b : string) :
  no_space k = true -> k <> "" -> all_space post = true ->
  w ++ post = a ++ k ++ b -> exists b', w = a ++ k ++ b'.
Proof.
  revert w; induction a as [|c a IH]; intros w Hk Hne Hpost H.
  - simpl in *. now apply (prefix_before_padding k w post b).
  - destruct w as [|x w].
    + simpl in H. subst post. exfalso. apply Hne.
      simpl in Hpost. apply andb_prop in Hpost. destruct Hpost as [_ Hpost].
      rewrite !all_space_append in Hpost.
      apply andb_prop in Hpost. destruct Hpost as [_ Hpost].
      apply andb_prop in Hpost. destruct Hpost as [Hpost _].
      now apply no_space_all_space.
    + simpl in H. injection H as -> H.
      destruct (IH w Hk Hne Hpost H) as [b' ->]. now exists b'.
Qed.

(** A word without white space found in a padded text is found in the
    text. *)
Lemma contains_padded (k pre w post : string) :
  no_space k = true -> k <> "" ->
  all_space pre = true -> all_space post = true ->
  contains k (pre ++ w ++ post) = true -> contains k w = true.
Proof.
  intros Hk Hne Hpre Hpost. rewrite !contains_iff.
  intros (a & b & H). revert a H; induction pre as [|c pre IH]; intros a H.
  - simpl in H. destruct (inside_before_padding a k w post b Hk Hne Hpost H)
      as [b' ->]. now exists a, b'.
  - simpl in Hpre. apply andb_prop in Hpre. destruct Hpre as [Hc Hpre].
    destruct a as [|x a].
    + simpl in H. destruct k as [|y k]; [contradiction|].
      simpl in H. injection H as <- _. simpl in Hk. rewrite Hc in Hk.
      discriminate.
    + simpl in H. injection H as _ H. now apply (IH Hpre a).
Qed.

(** ** The relevance filter and the classifiers *)

(** X1. The relevance filter accepts every utterance that contains an
    accepted utterance, whatever text stands before and after it. *)
Theorem hospital_related_in_context (q pre post : string) :
  _is_hospital_related q = true ->
  _is_hospital_related (pre ++ q ++ post) = true.
Proof.
  unfold _is_hospital_related. rewrite !any_in_exists.
  intros (w & Hin & Hc). exists w. split; [exact Hin|].
  rewrite !lower_append. now apply contains_context.
Qed.

Lemma hospital_related_in_context_witness :
  _is_hospital_related ("what is the weather at " ++ "the clinic" ++ " today")
  = true.
Proof.
  apply (hospital_related_in_context "the clinic" "what is the weather at "
           " today").
  reflexivity.
Defined.

(** X2. An utterance that contains "list" contains "is", so the extractor
    classifies it as a confirmation and the memory records
    "confirmation": the search keyword "list" of the memory never decides. *)
Theorem list_is_a_confirmation (list_set : list string -> list string)
    (q : string) (hs : list Hospital) (ctx : Context) :
  contains "list" (lower q) = true ->
  classify (lower q) = "confirmation"
  /\ last_intent (_update_context list_set q hs ctx) = Some "confirmation".
Proof.
  intro Hlist.
  assert (His : contains "is" (lower q) = true)
    by (now apply (contains_trans "is" "list")).
  split.
  - unfold classify, any_in. cbn [existsb]. rewrite His.
    now rewrite orb_true_r.
  - rewrite update_context_intent. unfold any_in. cbn [existsb].
    rewrite His. now rewrite !orb_true_r.
Qed.

Lemma list_is_a_confirmation_witness :
  classify (lower "List hospitals in Mumbai") = "confirmation"
  /\ last_intent
       (_update_context distinct_order "List hospitals in Mumbai" []
          (context (new_memory 10)))
     = Some "confirmation".
Proof.
  apply (list_is_a_confirmation distinct_order "List hospitals in Mumbai" []
           (context (new_memory 10))).
  reflexivity.
Defined.

(** ** The count of an intent *)

Lemma rmatch_seq_In (r1 r2 : regex) (s : string)
    (m : string * option string * string) :
  In m (rmatch (Seq r1 r2) s) ->
  exists m1 m2,
    In m1 (rmatch r1 s) /\ In m2 (rmatch r2 (snd m1))
    /\ fst (fst m) = fst (fst m1) ++ fst (fst m2)
    /\ snd (fst m) = or_else (snd (fst m2)) (snd (fst m1)).
Proof.
  cbn [rmatch]. intro H. apply in_flat_map in H.
  destruct H as (m1 & H1 & H). apply in_map_iff in H.
  destruct H as (m2 & <- & H2). now exists m1, m2.
Qed.

Lemma rmatch_lit_In (p s : string) (m : string * option string * string) :
  In m (rmatch (Lit p) s) -> fst (fst m) = p /\ snd (fst m) = None.
Proof.
  cbn [rmatch]. destruct (drop_prefix p s); [|contradiction].
  intros [<-|[]]. now split.
Qed.

Lemma rmatch_group_In (r : regex) (s : string)
    (m : string * option string * string) :
  In m (rmatch (Group r) s) ->
  exists m', In m' (rmatch r s) /\ snd (fst m) = Some (fst (fst m')).
Proof.
  cbn [rmatch]. intro H. apply in_map_iff in H.
  destruct H as (m' & <- & H'). now exists m'.
Qed.

(** What the group of the number pattern can capture. *)
Lemma number_pattern_group (s : string) (m : string * option string * string) :
  In m (rmatch number_pattern s) ->
  exists g,
    snd (fst m) = Some g
    /\ (g = "three" \/ g = "five" \/ g = "ten"
        \/ exists rest, g = String "\" rest).
Proof.
  unfold number_pattern. intro H.
  apply rmatch_seq_In in H. destruct H as (m1 & m2 & H1 & H2 & _ & Hg).
  apply rmatch_lit_In in H1. destruct H1 as [_ Hg1].
  apply rmatch_seq_In in H2. destruct H2 as (m3 & m4 & H3 & H4 & _ & Hg2).
  apply rmatch_lit_In in H4. destruct H4 as [_ Hg4].
  apply rmatch_group_In in H3. destruct H3 as (m5 & H5 & Hg3).
  rewrite Hg, Hg1, Hg2, Hg4, Hg3. cbn [or_else].
  exists (fst (fst m5)). split; [reflexivity|].
  cbn [rmatch] in H5. apply in_app_or in H5. destruct H5 as [H5|H5].
  - right. right. right.
    apply (rmatch_seq_In (Lit "\") (Plus "d")) in H5.
    destruct H5 as (m6 & m7 & H6 & _ & Htext & _).
    apply rmatch_lit_In in H6. destruct H6 as [H6 _].
    rewrite Htext, H6. now eexists.
  - apply in_app_or in H5. destruct H5 as [H5|H5];
      [|apply in_app_or in H5; destruct H5 as [H5|H5]];
      apply rmatch_lit_In in H5; destruct H5 as [H5 _]; rewrite H5; tauto.
Qed.

Lemma findall_first_In (r : regex) (s g : string) :
  findall_first r s = Some g ->
  exists s' m,
    In m (rmatch r s')
    /\ g = match snd (fst m) with Some g' => g' | None => "" end.
Proof.
  induction s as [|c s IH]; cbn [findall_first].
  - destruct (rmatch r "") as [|m ms] eqn:Hm; [discriminate|].
    intros [= <-]. exists "", m. rewrite Hm. split; [now left | reflexivity].
  - destruct (rmatch r (String c s)) as [|m ms] eqn:Hm; [exact IH|].
    intros [= <-]. exists (String c s), m. rewrite Hm.
    split; [now left | reflexivity].
Qed.

Lemma count_of_values (ql : string) :
  count_of ql = 3%Z \/ count_of ql = 5%Z \/ count_of ql = 10%Z.
Proof.
  unfold count_of.
  destruct (findall_first number_pattern ql) as [g|] eqn:Hf; [|now left].
  apply findall_first_In in Hf. destruct Hf as (s' & m & Hm & ->).
  apply number_pattern_group in Hm. destruct Hm as (g & -> & Hg).
  destruct Hg as [->|[->|[->|[rest ->]]]]; cbn; tauto.
Qed.

(** X3. Whatever the utterance, the count of the extracted intent is 3, 5
    or 10: the branch that parses digits is never taken. *)
Theorem intent_count_is_3_5_or_10 (mem : ConversationMemory) (q : string)
    (it : Intent) :
  _extract_intent mem q = Ok it ->
  intent_count it = 3%Z \/ intent_count it = 5%Z \/ intent_count it = 10%Z.
Proof.
  unfold _extract_intent. intro H.
  destruct (match given _ with None => _ | Some _ => _ end) as [cty|e];
    [|discriminate].
  cbn [bind] in H. injection H as <-. apply count_of_values.
Qed.

Lemma intent_count_is_3_5_or_10_witness :
  let it :=
    {| intent_type := "search"; intent_city := None;
       intent_hospital_name := None; intent_count := 10 |} in
  intent_count it = 3%Z \/ intent_count it = 5%Z \/ intent_count it = 10%Z.
Proof.
  apply (intent_count_is_3_5_or_10 (new_memory 10) "show \bten\b hospitals").
  reflexivity.
Defined.

(** ** Intent extraction on a memory *)

Lemma get_last_city_ok (mem : ConversationMemory) :
  memory_ok mem ->
  exists r, get_last_city mem = Ok r /\ r = hd_error (cities_of mem).
Proof.
  intro Hok. unfold get_last_city, cities_of.
  destruct (last_cities (context mem)) as [l|] eqn:Hl; [|now exists None].
  destruct l as [|c l]; [now specialize (Hok [] Hl)|].
  now exists (Some c).
Qed.

Lemma first_in_some (ws : list string) (s w : string) :
  first_in ws s = Some w -> In w ws /\ contains w s = true.
Proof. unfold first_in. intro H. apply find_some in H. exact H. Qed.

(** The intent extracted on a memory whose [last_cities] is sound. *)
Lemma extract_intent_spec (mem : ConversationMemory) (q : string) :
  memory_ok mem ->
  exists it,
    _extract_intent mem q = Ok it
    /\ intent_type it = classify (lower q)
    /\ match intent_city it with
       | None => True
       | Some c =>
           In c ["Bangalore"; "Bengaluru"; "Delhi"; "Mumbai"; "Chennai";
                 "Hyderabad"; "Pune"; "Kolkata"]
           \/ (intent_type it = "followup"
               /\ hd_error (cities_of mem) = Some c)
       end
    /\ match intent_hospital_name it with
       | None => True
       | Some h =>
           In h ["manipal"; "apollo"; "fortis"; "max"; "medanta"; "artemis"]
           /\ contains h (lower q) = true
       end.
Proof.
  intro Hok. unfold _extract_intent.
  assert (Hhosp :
    match
      first_in ["manipal"; "apollo"; "fortis"; "max"; "medanta"; "artemis"]
        (lower q)
    with
    | None => True
    | Some h =>
        In h ["manipal"; "apollo"; "fortis"; "max"; "medanta"; "artemis"]
        /\ contains h (lower q) = true
    end).
  { destruct (first_in _ (lower q)) as [h|] eqn:Hh; [|exact I].
    now apply first_in_some. }
  destruct (first_in ["bangalore"; "bengaluru"; "delhi"; "mumbai"; "chennai";
                      "hyderabad"; "pune"; "kolkata"] (lower q))
    as [w|] eqn:Hw.
  - apply first_in_some in Hw. destruct Hw as [Hin _].
    assert (Hcap :
      exists c, capitalize w = c
                /\ given (Some c) = Some c
                /\ In c ["Bangalore"; "Bengaluru"; "Delhi"; "Mumbai";
                         "Chennai"; "Hyderabad"; "Pune"; "Kolkata"]).
    { repeat (destruct Hin as [<-|Hin];
              [eexists; split; [reflexivity|]; split; [reflexivity|];
               simpl; tauto|]).
      contradiction. }
    destruct Hcap as (c & Hc & Hgiven & Hlist).
    cbn [option_map]. rewrite Hc, Hgiven. cbn [bind].
    eexists. split; [reflexivity|]. cbn.
    split; [reflexivity|]. split; [now left | exact Hhosp].
  - cbn [option_map given].
    destruct (String.eqb (classify (lower q)) "followup") eqn:Htype.
    + destruct (get_last_city_ok mem Hok) as (r & -> & ->). cbn [bind].
      eexists. split; [reflexivity|]. cbn.
      split; [reflexivity|]. split; [|exact Hhosp].
      destruct (hd_error (cities_of mem)) as [c|]; [|exact I].
      right. split; [|reflexivity]. now apply String.eqb_eq.
    + cbn [bind]. eexists. split; [reflexivity|]. cbn.
      split; [reflexivity|]. split; [exact I | exact Hhosp].
Qed.


Lemma new_memory_ok (n : Z) : memory_ok (new_memory n).
Proof. intros l H. discriminate H. Qed.

Lemma add_interaction_ok (list_set : list string -> list string)
    (mem : ConversationMemory) (q a : string) (hs : list Hospital) :
  (forall l, l <> [] -> list_set l <> []) ->
  memory_ok mem -> memory_ok (add_interaction list_set mem q a hs).
Proof.
  intros Hne Hok l. simpl. rewrite update_context_cities.
  destruct hs as [|h hs]; simpl; [apply Hok|].
  intros [= <-]. now apply Hne.
Qed.


(** ** The conversation context *)

Lemma fold_left_render (ts : list Turn) (init : string) :
  fold_left
    (fun context_str interaction =>
       context_str ++ "User: " ++ user interaction ++ "\nAssistant: "
       ++ assistant interaction ++ "\n")
    ts init
  = init ++ render_turns ts.
Proof.
  revert init; induction ts as [|t ts IH]; intro init.
  - simpl. now rewrite append_nil_r.
  - cbn [fold_left render_turns fold_right]. rewrite IH.
    change ("User: " ++ user t ++ "\nAssistant: " ++ assistant t ++ "\n")
      with (render_turn t).
    now rewrite append_assoc.
Qed.

Lemma last_n_last_n {A} (a b : nat) (l : list A) :
  last_n a (last_n b l) = last_n (Nat.min a b) l.
Proof.
  unfold last_n. rewrite length_skipn, skipn_skipn. f_equal.
  destruct (Nat.min_spec a b) as [[Hab ->]|[Hab ->]]; lia.
Qed.

Lemma last_n_nil {A} (n : nat) (l : list A) :
  0 < n -> last_n n l = [] -> l = [].
Proof.
  intros Hn H. destruct l as [|x l]; [reflexivity|].
  apply (f_equal (@List.length A)) in H.
  unfold last_n in H. rewrite length_skipn in H.
  cbn [List.length] in H. lia.
Qed.

(** X5. After any non-empty sequence of turns added to a new memory with
    a positive cap, the conversation context is the header followed by the
    user and assistant lines of the last three turns (of the last [cap]
    turns when the cap is below three), oldest first, and nothing else. *)
Theorem conversation_context_of_recent_turns
    (list_set : list string -> list string) (n : Z) (ts : list Turn) :
  (0 < n)%Z -> ts <> [] ->
  get_conversation_context (add_turns list_set (new_memory n) ts)
  = "Previous conversation:\n"
    ++ render_turns (last_n (Nat.min 3 (Z.to_nat n)) ts).
Proof.
  intros Hn Hts. unfold get_conversation_context.
  rewrite (add_turns_history list_set (Z.to_nat n) ts [] (new_memory n));
    [|simpl; lia | lia | reflexivity].
  simpl app.
  destruct (last_n (Z.to_nat n) ts) as [|t l] eqn:Hl.
  - apply last_n_nil in Hl; [contradiction | lia].
  - cbn [truthy negb]. rewrite fold_left_render. rewrite <- Hl.
    change (slice_from (-3) (last_n (Z.to_nat n) ts))
      with (last_n 3 (last_n (Z.to_nat n) ts)).
    now rewrite last_n_last_n.
Qed.

Lemma conversation_context_of_recent_turns_witness :
  get_conversation_context
    (add_turns distinct_order (new_memory 10) eleven_turns)
  = "Previous conversation:\n"
    ++ render_turns (last_n (Nat.min 3 (Z.to_nat 10)) eleven_turns).
Proof.
  apply (conversation_context_of_recent_turns distinct_order 10 eleven_turns);
    [lia | discriminate].
Defined.

(** ** Clearing the memory *)

Lemma calls_max_history (list_set : list string -> list string)
    (cs : list MemoryCall) (mem : ConversationMemory) :
  max_history (calls list_set mem cs) = max_history mem.
Proof.
  revert mem; induction cs as [|c cs IH]; intro mem; [reflexivity|].
  change (calls list_set mem (c :: cs))
    with (calls list_set (call list_set mem c) cs).
  rewrite IH. now destruct c.
Qed.

(** X6. Nothing done before a [clear] is visible after it: the memory
    after calls, a [clear] and further calls is the memory a new
    [ConversationMemory] with the same cap has after the further calls. *)
Theorem clear_forgets_everything (list_set : list string -> list string)
    (mem : ConversationMemory) (before after : list MemoryCall) :
  calls list_set mem (before ++ CallClear :: after)
  = calls list_set (new_memory (max_history mem)) after.
Proof.
  unfold calls at 1. rewrite fold_left_app. cbn [fold_left call].
  fold (calls list_set mem before). unfold clear.
  now rewrite calls_max_history.
Qed.

(** ** One call of [process_query] *)

Section TurnFacts.

Variable list_set : list string -> list string.
Variable argsort : list Q -> list nat.
Variable l2norm : list Q -> Q.
Variable chat : nat -> string -> string -> result string.

(** The agent as [process_query] leaves it before it looks at the query. *)
Lemma started_agent (self : LoopAIAgent) (first : bool) :
  let self1 :=
    if first || negb (session_started self) then
      {| rag_engine := rag_engine self; memory := memory self;
         session_started := true; system_prompt := system_prompt self;
         greeting_message := greeting_message self |}
    else self in
  rag_engine self1 = rag_engine self /\ memory self1 = memory self
  /\ system_prompt self1 = system_prompt self
  /\ greeting_message self1 = greeting_message self
  /\ session_started self1 = true.
Proof.
  destruct first, (session_started self) eqn:Hs; simpl; auto.
Qed.

(** X7. An utterance that is not a first-turn greeting and fails the
    relevance filter gets the canned refusal; nothing is recorded in
    memory, and neither the engine nor the language model has a part in
    the answer. *)
Theorem unrelated_query_is_refused (self : LoopAIAgent) (q : string)
    (first : bool) :
  greeted self q first = false ->
  _is_hospital_related q = false ->
  let r := process_query list_set argsort l2norm chat self q first in
  snd r = Ok refusal_message
  /\ memory (fst r) = memory self
  /\ rag_engine (fst r) = rag_engine self
  /\ session_started (fst r) = true.
Proof.
  intros Hg Hrel. unfold process_query, process_query_body.
  unfold greeted in Hg. rewrite Hg, Hrel. cbn [negb fst snd].
  destruct (started_agent self first) as (Hr & Hm & _ & _ & Hs).
  repeat split; assumption.
Qed.

(** The keywords of the relevance filter hold no white space. *)
Lemma keywords_without_space (w : string) :
  In w ["hospital"; "clinic"; "medical"; "health"; "doctor"; "healthcare";
        "network"; "manipal"; "apollo"; "fortis"; "bangalore"; "delhi";
        "location"; "address"; "find"; "near"; "around"; "city"; "confirm";
        "check"; "available"; "list"; "tell"] ->
  no_space w = true /\ w <> "".
Proof.
  intro H. repeat (destruct H as [<-|H]; [split; [reflexivity|discriminate]|]).
  contradiction.
Qed.

Lemma greeting_not_related (q : string) :
  str_in (lower (strip q)) ["hi"; "hello"; "hey"; "start"; "help"] = true ->
  _is_hospital_related q = false.
Proof.
  intro Hg. destruct (_is_hospital_related q) eqn:Hrel; [|reflexivity].
  exfalso. unfold _is_hospital_related in Hrel.
  apply any_in_exists in Hrel. destruct Hrel as (w & Hin & Hc).
  destruct (keywords_without_space w Hin) as [Hw Hne].
  destruct (strip_decompose q) as (pre & post & Hq & Hpre & Hpost).
  rewrite Hq, !lower_append in Hc.
  apply contains_padded in Hc;
    [| assumption | assumption | now rewrite all_space_lower
     | now rewrite all_space_lower].
  unfold str_in in Hg. apply existsb_exists in Hg.
  destruct Hg as (g & Hgin & Hgeq). apply String.eqb_eq in Hgeq.
  rewrite Hgeq in Hc.
  assert (Hnone :
    any_in ["hospital"; "clinic"; "medical"; "health"; "doctor"; "healthcare";
            "network"; "manipal"; "apollo"; "fortis"; "bangalore"; "delhi";
            "location"; "address"; "find"; "near"; "around"; "city";
            "confirm"; "check"; "available"; "list"; "tell"] g = false).
  { repeat (destruct Hgin as [<-|Hgin]; [reflexivity|]). contradiction. }
  rewrite (any_in_false _ g w Hnone Hin) in Hc. discriminate.
Qed.

(** X8. A bare greeting (in any letter case, with white space around it)
    is answered with the greeting message only on the first turn of a
    session; once the session has started, and the caller does not flag
    the message as first, the same greeting gets the canned refusal.  In
    both cases nothing is recorded. *)
Theorem greeting_only_opens_a_session (self : LoopAIAgent) (q : string)
    (first : bool) :
  str_in (lower (strip q)) ["hi"; "hello"; "hey"; "start"; "help"] = true ->
  let r := process_query list_set argsort l2norm chat self q first in
  memory (fst r) = memory self
  /\ (first || negb (session_started self) = true ->
      snd r = Ok (greeting_message self))
  /\ (first || negb (session_started self) = false ->
      snd r = Ok refusal_message).
Proof.
  intros Hg. unfold process_query, process_query_body.
  rewrite Hg, (greeting_not_related q Hg).
  destruct (started_agent self first) as (_ & Hm & _ & Hgm & _).
  destruct (first || negb (session_started self)); cbn [andb negb fst snd].
  - split; [reflexivity|]. split; [reflexivity | discriminate].
  - split; [reflexivity|]. split; [discriminate | reflexivity].
Qed.

(** What the attempt loop can end in. *)
Lemma generate_cases (self : LoopAIAgent) (intro q prompt : string)
    (hs : list Hospital) (todo : list nat) :
  let r := generate list_set chat self intro q prompt hs todo in
  (exists e, r = (self, Raise e)
             /\ chat 3 (system_prompt self) prompt = Raise e)
  \/ exists answer,
       r = (record_turn list_set self q answer hs, Ok (intro ++ answer))
       /\ (answer = fallback_answer hs
           \/ (acceptable answer = true
               /\ exists attempt content,
                    chat attempt (system_prompt self) prompt = Ok content
                    /\ answer = clean content)).
Proof.
  induction todo as [|attempt todo IH]; cbn [generate].
  - right. exists (fallback_answer hs). split; [reflexivity | now left].
  - destruct (chat attempt (system_prompt self) prompt) as [content|e] eqn:Hc.
    + destruct (acceptable (clean content)) eqn:Ha; [|exact IH].
      right. exists (clean content). split; [reflexivity|].
      right. split; [exact Ha|]. now exists attempt, content.
    + destruct (Nat.eqb_spec attempt 3) as [->|_]; [|exact IH].
      left. now exists e.
Qed.

Lemma retrieve_ok (self : LoopAIAgent) (q : string) (it : Intent) :
  exists hs, retrieve argsort l2norm self q it = Ok hs.
Proof.
  unfold retrieve.
  destruct (if String.eqb (intent_type it) "confirmation"
            then given (intent_hospital_name it) else None).
  - apply search_by_name_and_city_ok.
  - apply search_hospitals_ok.
Qed.

(** The outcomes of the body of [process_query]. *)
Lemma process_query_body_cases (self : LoopAIAgent) (q : string)
    (first : bool) :
  let r := process_query_body list_set argsort l2norm chat self q first in
  rag_engine (fst r) = rag_engine self
  /\ session_started (fst r) = true
  /\ ((memory (fst r) = memory self
       /\ (snd r = Ok (greeting_message self) \/ snd r = Ok refusal_message
           \/ (exists e, snd r = Raise e
                         /\ _extract_intent (memory self) q = Raise e)
           \/ exists e prompt,
                snd r = Raise e
                /\ chat 3 (system_prompt self) prompt = Raise e))
      \/ exists answer hs,
           memory (fst r)
           = add_interaction list_set (memory self) q answer hs
           /\ snd r = Ok (intro_of self first ++ answer)
           /\ (answer = fallback_answer hs
               \/ (acceptable answer = true
                   /\ exists attempt content prompt,
                        chat attempt (system_prompt self) prompt = Ok content
                        /\ answer = clean content))
           /\ exists it,
                _extract_intent (memory self) q = Ok it
                /\ retrieve argsort l2norm self q it = Ok hs).
Proof.
  unfold process_query_body, intro_of.
  destruct (started_agent self first) as (Hr & Hm & Hsp & Hgm & Hs).
  set (self1 :=
         if first || negb (session_started self) then
           {| rag_engine := rag_engine self; memory := memory self;
              session_started := true; system_prompt := system_prompt self;
              greeting_message := greeting_message self |}
         else self) in *.
  destruct ((first || negb (session_started self))
            && str_in (lower (strip q)) ["hi"; "hello"; "hey"; "start"; "help"]).
  { cbn [fst snd]. rewrite Hgm. tauto. }
  destruct (_is_hospital_related q); cbn [negb].
  2:{ cbn [fst snd]. tauto. }
  rewrite Hm.
  destruct (_extract_intent (memory self) q) as [it|e] eqn:Hit.
  2:{ cbn [fst snd]. split; [exact Hr|]. split; [exact Hs|].
      left. split; [exact Hm|]. right. right. left. now exists e. }
  destruct (retrieve_ok self1 q it) as [hs Hhs]. rewrite Hhs.
  assert (Hret : retrieve argsort l2norm self q it = Ok hs).
  { rewrite <- Hhs. unfold retrieve. now rewrite Hr. }
  match goal with
  | |- context [generate _ _ _ ?i _ ?prompt _ _] =>
      set (p := prompt);
      destruct (generate_cases self1 i q p hs (seq 1 3))
        as [(e & -> & He)|(answer & -> & Hans)]
  end.
  - cbn [fst snd]. split; [exact Hr|]. split; [exact Hs|].
    left. split; [exact Hm|]. right. right. right.
    rewrite Hsp in He. eauto.
  - cbn [fst snd record_turn rag_engine session_started memory].
    split; [exact Hr|]. split; [exact Hs|].
    right. exists answer, hs. rewrite Hm. split; [reflexivity|].
    split; [reflexivity|]. split; [|now exists it].
    destruct Hans as [->|(Ha & attempt & content & Hc & ->)]; [now left|].
    right. split; [exact Ha|]. rewrite Hsp in Hc. now exists attempt, content, p.
Qed.

(** The outcomes of [process_query]. *)
Lemma process_query_cases (self : LoopAIAgent)
    (q : string) (first : bool) :
  let r := process_query list_set argsort l2norm chat self q first in
  rag_engine (fst r) = rag_engine self
  /\ session_started (fst r) = true
  /\ ((memory (fst r) = memory self
       /\ (snd r = Ok (greeting_message self) \/ snd r = Ok refusal_message
           \/ snd r = Ok trouble_message))
      \/ exists answer hs,
           memory (fst r)
           = add_interaction list_set (memory self) q answer hs
           /\ snd r = Ok (intro_of self first ++ answer)
           /\ (answer = fallback_answer hs
               \/ (acceptable answer = true
                   /\ exists attempt content prompt,
                        chat attempt (system_prompt self) prompt = Ok content
                        /\ answer = clean content))
           /\ exists it,
                _extract_intent (memory self) q = Ok it
                /\ retrieve argsort l2norm self q it = Ok hs).
Proof.
  unfold process_query.
  destruct (process_query_body_cases self q first)
    as (Hr & Hs & [[Hm Hres]|(answer & hs & Hm & Hres & Hans)]);
    destruct (process_query_body list_set argsort l2norm chat self q first)
      as [self' [text|e]]; cbn [fst snd] in *;
    (split; [exact Hr|]); (split; [exact Hs|]).
  - left. split; [exact Hm|].
    destruct Hres as [H|[H|[(e & H & _)|(e & p & H & _)]]];
      try discriminate H; tauto.
  - left. split; [exact Hm|]. tauto.
  - right. now exists answer, hs.
  - discriminate Hres.
Qed.

(** X9. Every call of [process_query] leaves the engine as it was and the
    session started.  Either it records nothing and answers with the
    greeting, the refusal or the trouble sentence, or it records exactly
    one turn, made of the utterance, the answer and the hospitals that
    the retrieval step returns for the intent extracted from the
    utterance, and returns that same answer after the introduction; the
    recorded answer is the fallback sentence for those hospitals or the
    cleaned text of an attempt of the language model that passed the
    quality check. *)
Theorem process_query_records_what_it_answers (self : LoopAIAgent)
    (q : string) (first : bool) :
  let r := process_query list_set argsort l2norm chat self q first in
  rag_engine (fst r) = rag_engine self
  /\ session_started (fst r) = true
  /\ ((memory (fst r) = memory self
       /\ (snd r = Ok (greeting_message self) \/ snd r = Ok refusal_message
           \/ snd r = Ok trouble_message))
      \/ exists answer hs,
           memory (fst r)
           = add_interaction list_set (memory self) q answer hs
           /\ snd r = Ok (intro_of self first ++ answer)
           /\ (answer = fallback_answer hs
               \/ (acceptable answer = true
                   /\ exists attempt content prompt,
                        chat attempt (system_prompt self) prompt = Ok content
                        /\ answer = clean content))
           /\ exists it,
                _extract_intent (memory self) q = Ok it
                /\ retrieve argsort l2norm self q it = Ok hs).
Proof. apply process_query_cases. Qed.

(** X10. When the memory of the agent is sound, the only exception the
    outer handler of [process_query] ever catches is one raised by the
    third call of the language model: if that call does not raise, the
    trouble sentence is not produced by the handler. *)
Theorem only_the_model_can_fail (self : LoopAIAgent) (q : string)
    (first : bool) (e : exn) :
  memory_ok (memory self) ->
  snd (process_query_body list_set argsort l2norm chat self q first) = Raise e ->
  exists prompt, chat 3 (system_prompt self) prompt = Raise e.
Proof.
  intros Hok He.
  destruct (process_query_body_cases self q first)
    as (_ & _ & [[_ Hres]|(answer & hs & _ & Hres & _)]).
  - destruct Hres as [H|[H|[(e' & H & Hit)|(e' & p & H & Hc)]]].
    + rewrite He in H. discriminate.
    + rewrite He in H. discriminate.
    + destruct (extract_intent_spec (memory self) q Hok) as (it & Hok' & _).
      rewrite Hok' in Hit. discriminate.
    + rewrite He in H. injection H as <-. now exists p.
  - rewrite He in Hres. discriminate.
Qed.

Lemma search_by_name_and_city_length (rag : HospitalRAG) (nm : string)
    (cty : option string) (k : Z) (hs : list Hospital) :
  (0 <= k)%Z ->
  search_by_name_and_city argsort l2norm rag nm cty k = Ok hs ->
  (Z.of_nat (List.length hs) <= k)%Z.
Proof.
  intro Hk. unfold search_by_name_and_city.
  destruct (hospitals_df rag) as [df|];
    [|intros [= <-]; simpl; lia].
  destruct (search_hospitals_ok argsort l2norm rag (fallback_query nm cty) k
              default_threshold) as [sem Hsem].
  pose proof (search_hospitals_length argsort l2norm rag _ k _ sem Hk Hsem)
    as Hlen.
  rewrite Hsem.
  destruct (exact_rows df nm cty) as [tr|e]; cbn [bind try_except].
  - destruct (_ <? k)%Z; cbn [bind try_except]; intros [= <-];
      now apply slice_to_length.
  - now intros [= <-].
Qed.

(** X11. The retrieval step of [process_query] returns at most as many
    hospitals as the count of the intent, hence at most ten. *)
Theorem retrieval_is_bounded_by_count (self : LoopAIAgent) (q : string)
    (it : Intent) (hs : list Hospital) :
  _extract_intent (memory self) q = Ok it ->
  retrieve argsort l2norm self q it = Ok hs ->
  (Z.of_nat (List.length hs) <= intent_count it)%Z
  /\ (intent_count it <= 10)%Z.
Proof.
  intros Hit Hhs.
  assert (Hcount : intent_count it = 3%Z \/ intent_count it = 5%Z
                   \/ intent_count it = 10%Z).
  { unfold _extract_intent in Hit.
    destruct (match given _ with None => _ | Some _ => _ end) as [cty|e];
      [|discriminate].
    cbn [bind] in Hit. injection Hit as <-. apply count_of_values. }
  assert (Hpos : (0 <= intent_count it)%Z) by lia.
  split; [|lia].
  unfold retrieve in Hhs.
  destruct (if String.eqb (intent_type it) "confirmation"
            then given (intent_hospital_name it) else None).
  - exact (search_by_name_and_city_length _ _ _ _ _ Hpos Hhs).
  - exact (search_hospitals_length argsort l2norm _ _ _ _ _ Hpos Hhs).
Qed.

End TurnFacts.

Lemma unrelated_query_is_refused_witness :
  let r :=
    process_query distinct_order argsort_insertion l2norm_floor chat_down
      (fresh_agent flat_rag) "what's the weather" true in
  snd r = Ok refusal_message
  /\ memory (fst r) = memory (fresh_agent flat_rag)
  /\ rag_engine (fst r) = rag_engine (fresh_agent flat_rag)
  /\ session_started (fst r) = true.
Proof.
  apply (unrelated_query_is_refused distinct_order argsort_insertion
           l2norm_floor chat_down (fresh_agent flat_rag) "what's the weather"
           true);
    reflexivity.
Defined.

Lemma greeting_only_opens_a_session_witness :
  let self := fst (process_query distinct_order argsort_insertion l2norm_floor
                     chat_down (fresh_agent flat_rag) " Hello " true) in
  let r :=
    process_query distinct_order argsort_insertion l2norm_floor chat_down self
      " Hello " false in
  memory (fst r) = memory self /\ snd r = Ok refusal_message.
Proof.
  intros self r.
  destruct (greeting_only_opens_a_session distinct_order argsort_insertion
              l2norm_floor chat_down self " Hello " false)
    as (Hm & _ & Hlater); [reflexivity|].
  split; [exact Hm | apply Hlater; reflexivity].
Defined.

Lemma only_the_model_can_fail_witness :
  exists prompt,
    chat_down 3 (system_prompt (fresh_agent flat_rag)) prompt
    = Raise (RuntimeError "connection refused").
Proof.
  apply (only_the_model_can_fail distinct_order argsort_insertion l2norm_floor
           chat_down (fresh_agent flat_rag) "find hospital in delhi" false).
  - apply new_memory_ok.
  - reflexivity.
Defined.

Lemma retrieval_is_bounded_by_count_witness :
  let hs :=
    [exact_entry {| hospital_name := "Apollo Hospital";
                    row_address := "123 Main St";
                    row_city := "Bangalore" |}] in
  (Z.of_nat (List.length hs) <= 3)%Z /\ (3 <= 10)%Z.
Proof.
  apply (retrieval_is_bounded_by_count argsort_insertion l2norm_floor
           (fresh_agent dummy_rag) "is apollo in bangalore"
           {| intent_type := "confirmation"; intent_city := Some "Bangalore";
              intent_hospital_name := Some "apollo"; intent_count := 3 |});
    reflexivity.
Defined.

(** ** Conversations *)

Section ConversationFacts.

Variable list_set : list string -> list string.
Variable argsort : list Q -> list nat.
Variable l2norm : list Q -> Q.

Hypothesis list_set_nonempty : forall l, l <> [] -> list_set l <> [].

Lemma add_interaction_length (n : nat) (mem : ConversationMemory)
    (q a : string) (hs : list Hospital) :
  max_history mem = Z.of_nat n -> 0 < n ->
  List.length (history (add_interaction list_set mem q a hs)) <= n.
Proof.
  intros Hmax Hn.
  change (add_interaction list_set mem q a hs)
    with (add_turn list_set mem
            {| user := q; assistant := a; hospitals := hs |}).
  rewrite (add_turn_history list_set n) by assumption.
  apply last_n_length.
Qed.

(** One call keeps the memory sound and within its cap. *)
Lemma process_query_keeps (n : nat) (self : LoopAIAgent) (u : Utterance) :
  memory_ok (memory self) ->
  max_history (memory self) = Z.of_nat n -> 0 < n ->
  List.length (history (memory self)) <= n ->
  let a :=
    fst (process_query list_set argsort l2norm (model u) self (said u)
           (flagged_first u)) in
  memory_ok (memory a)
  /\ max_history (memory a) = Z.of_nat n
  /\ List.length (history (memory a)) <= n
  /\ rag_engine a = rag_engine self
  /\ session_started a = true.
Proof.
  intros Hok Hmax Hn Hlen a.
  destruct (process_query_cases list_set argsort l2norm (model u) self
              (said u) (flagged_first u))
    as (Hr & Hs & [[Hm _]|(answer & hs & Hm & _)]);
    fold a in Hr, Hs, Hm; rewrite Hm.
  - repeat split; assumption.
  - split; [now apply add_interaction_ok|].
    split; [exact Hmax|].
    split; [now apply add_interaction_length|].
    split; assumption.
Qed.

(** X12. Along every conversation, whatever the language model does in
    each call, the memory of the agent stays sound and within its cap, the
    engine is the one the agent started with, the session is started after
    the first call, and intent extraction raises on no utterance. *)
Theorem conversation_invariants (n : nat) (self : LoopAIAgent)
    (us : list Utterance) :
  memory_ok (memory self) ->
  max_history (memory self) = Z.of_nat n -> 0 < n ->
  List.length (history (memory self)) <= n ->
  let a := converse list_set argsort l2norm self us in
  memory_ok (memory a)
  /\ List.length (history (memory a)) <= n
  /\ rag_engine a = rag_engine self
  /\ (us <> [] -> session_started a = true)
  /\ forall q, exists it, _extract_intent (memory a) q = Ok it.
Proof.
  revert self; induction us as [|u us IH]; intros self Hok Hmax Hn Hlen.
  - simpl. repeat split; try assumption; [contradiction|].
    intro q. destruct (extract_intent_spec (memory self) q Hok) as (it & H & _).
    now exists it.
  - destruct (process_query_keeps n self u Hok Hmax Hn Hlen)
      as (Hok' & Hmax' & Hlen' & Hr' & Hs').
    set (self' :=
           fst (process_query list_set argsort l2norm (model u) self (said u)
                  (flagged_first u))) in *.
    change (converse list_set argsort l2norm self (u :: us))
      with (converse list_set argsort l2norm self' us).
    destruct (IH self' Hok' Hmax' Hn Hlen') as (H1 & H2 & H3 & H4 & H5).
    repeat split; try assumption.
    + now rewrite H3.
    + intros _. destruct us as [|u' us']; [exact Hs'|].
      apply H4. discriminate.
Qed.

End ConversationFacts.

Lemma conversation_invariants_witness :
  let a :=
    converse distinct_order argsort_insertion l2norm_floor
      (fresh_agent flat_rag)
      [{| model := chat_terse; said := "find hospital in delhi";
          flagged_first := true |};
       {| model := chat_down; said := "any other ones near the hospital";
          flagged_first := false |}] in
  memory_ok (memory a)
  /\ List.length (history (memory a)) <= 10
  /\ rag_engine a = flat_rag
  /\ session_started a = true
  /\ forall q, exists it, _extract_intent (memory a) q = Ok it.
Proof.
  intro a.
  destruct (conversation_invariants distinct_order argsort_insertion
              l2norm_floor distinct_order_nonempty 10 (fresh_agent flat_rag)
              [{| model := chat_terse; said := "find hospital in delhi";
                  flagged_first := true |};
               {| model := chat_down;
                  said := "any other ones near the hospital";
                  flagged_first := false |}])
    as (H1 & H2 & H3 & H4 & H5).
  - apply new_memory_ok.
  - reflexivity.
  - lia.
  - simpl. lia.
  - split; [exact H1|]. split; [exact H2|]. split; [exact H3|].
    split; [apply H4; discriminate | exact H5].
Defined.

(** ** Cleaning a generated answer *)

Lemma replace_from_absent (c : ascii) (x new s : string) :
  contains (String c EmptyString) s = false ->
  replace_from (String c x) new 0 s = s.
Proof.
  induction s as [|a s IH]; intro H; [reflexivity|].
  apply contains_cons_false in H. destruct H as [Ha Hs].
  cbn [replace_from startswith].
  destruct (Ascii.eqb_spec c a) as [->|_]; [contradiction|].
  cbn [andb]. now rewrite IH.
Qed.

Lemma strip_contains (w s : string) :
  contains w s = false -> contains w (strip s) = false.
Proof.
  intro H. destruct (contains w (strip s)) eqn:Hc; [|reflexivity].
  destruct (strip_decompose s) as (pre & post & Hs & _ & _).
  rewrite Hs in H. now rewrite (contains_context w (strip s) pre post Hc) in H.
Qed.

(** X13. On a text that holds no backslash, the cleaning of a generated
    answer only strips the white space at both ends: the two [replace]
    calls look for a backslash followed by [n] or [r], so line breaks
    inside the answer stay where they are. *)
Theorem clean_without_backslash (content : string) :
  contains "\" content = false -> clean content = strip content.
Proof.
  intro H. apply strip_contains in H. unfold clean, replace.
  rewrite (replace_from_absent "\" "n" " " (strip content) H).
  exact (replace_from_absent "\" "r" " " (strip content) H).
Qed.

Lemma clean_without_backslash_witness :
  clean ("  Apollo Hospital is in Bangalore." ++ newline
         ++ "It belongs to the network.  ")
  = "Apollo Hospital is in Bangalore." ++ newline
    ++ "It belongs to the network.".
Proof.
  rewrite (clean_without_backslash
             ("  Apollo Hospital is in Bangalore." ++ newline
              ++ "It belongs to the network.  "));
    reflexivity.
Defined.

(** ** Ranking *)

Lemma StronglySorted_app_inv {A} (R : A -> A -> Prop) (l1 l2 : list A) :
  StronglySorted R (l1 ++ l2)%list ->
  forall x y, In x l1 -> In y l2 -> R x y.
Proof.
  induction l1 as [|a l1 IH]; intros H x y Hx Hy; [contradiction|].
  simpl in H. inversion H as [|? ? Hs Hall]; subst.
  destruct Hx as [<-|Hx].
  - rewrite Forall_forall in Hall. apply Hall, in_or_app. now right.
  - now apply IH.
Qed.

Lemma NoDup_firstn {A} (n : nat) (l : list A) : NoDup l -> NoDup (firstn n l).
Proof.
  intro H. rewrite <- (firstn_skipn n l) in H.
  now apply NoDup_app_remove_r in H.
Qed.

Section RankingFacts.

Variable argsort : list Q -> list nat.
Variable l2norm : list Q -> Q.



Lemma getitem_ok {A} (l : list A) (i : nat) :
  i < List.length l -> exists x, getitem l i = Ok x.
Proof.
  intro H. unfold getitem.
  destruct (nth_error l i) as [x|] eqn:Hx; [now exists x|].
  apply nth_error_None in Hx. lia.
Qed.

(** The loop raises nothing when the indices are within the similarities
    and every metadata entry has its document. *)
Lemma collect_ok (self : HospitalRAG) (sims : list Q) (thr : Q)
    (idxs : list nat) (acc : list Hospital) :
  Forall (fun idx => idx < List.length sims) idxs ->
  List.length (metadata self) <= List.length (documents self) ->
  exists hs, collect self sims thr idxs acc = Ok hs.
Proof.
  intros Hidx Hdocs. revert acc.
  induction Hidx as [|idx idxs Hlt Hrest IH]; intro acc; [now exists acc|].
  cbn [collect].
  destruct (Nat.ltb_spec idx (List.length (metadata self))) as [Hm|_];
    [|apply IH].
  destruct (getitem_ok sims idx Hlt) as [s ->]. cbn [bind].
  destruct (Qle_bool thr s); [|apply IH].
  destruct (getitem_ok (metadata self) idx Hm) as [meta ->].
  destruct (getitem_ok (documents self) idx) as [doc ->]; [lia|].
  cbn [bind]. apply IH.
Qed.

Lemma Forall_firstn_in {A} (P : A -> Prop) (n : nat) (l : list A) :
  Forall P l -> Forall P (firstn n l).
Proof.
  intro H. rewrite Forall_forall in *. intros x Hx. apply H.
  rewrite <- (firstn_skipn n l). apply in_or_app. now left.
Qed.

(** X16. On a consistent index nothing is swallowed by the handler of
    [search_hospitals]: when the vectorizer transforms the query, every
    row of the matrix has the width of the query vector, every metadata
    entry has its document and the argsort returns valid indices, the
    result is, in the order of the reversed argsort, the entry of every
    index among the first [k] that is below the number of metadata
    entries and whose cosine similarity reaches the threshold. *)
Theorem search_hospitals_on_consistent_index (self : HospitalRAG)
    (q : string) (k : Z) (thr : Q) (v : Vectorizer) (matrix : list (list Q))
    (qv : list Q) :
  (forall s, Permutation (argsort s) (seq 0 (List.length s))) ->
  vectorizer self = Some v -> tfidf_matrix self = Some matrix ->
  transform v q = Ok qv ->
  Forall (fun row => List.length row = List.length qv) matrix ->
  List.length (metadata self) <= List.length (documents self) ->
  let sims :=
    map (fun row => dot (normalize l2norm qv) (normalize l2norm row)) matrix in
  search_hospitals argsort l2norm self q k thr
  = Ok (map (entry_at self sims)
          (filter (kept self sims thr) (slice_to k (rev (argsort sims))))).
Proof.
  intros Hperm Hv Hm Hq Hwidth Hdocs sims.
  unfold search_hospitals. rewrite Hv, Hm, Hq. cbn [bind].
  unfold cosine_similarity.
  assert (Hw : forallb (fun row => List.length row =? List.length qv) matrix
               = true).
  { apply forallb_forall. intros row Hrow. apply Nat.eqb_eq.
    rewrite Forall_forall in Hwidth. now apply Hwidth. }
  rewrite Hw. cbn [bind]. fold sims.
  destruct (collect_ok self sims thr (slice_to k (rev (argsort sims))) [])
    as [hs Hhs]; [|exact Hdocs|].
  - destruct (slice_to_prefix k (rev (argsort sims))) as [n ->].
    apply Forall_firstn_in, Forall_forall. intros idx Hidx.
    apply in_rev in Hidx.
    apply (Permutation_in idx (Hperm sims)) in Hidx.
    apply in_seq in Hidx. lia.
  - rewrite Hhs. cbn [try_except].
    now rewrite (collect_spec self sims thr _ [] hs Hhs).
Qed.

Lemma filter_short {A} (f : A -> bool) (l : list A) :
  List.length (filter f l) < List.length l ->
  exists x, In x l /\ f x = false.
Proof.
  induction l as [|a l IH]; simpl; [lia|].
  destruct (f a) eqn:Ha.
  - simpl. intro H. destruct IH as (x & Hx & Hfx); [lia|].
    exists x. split; [now right | exact Hfx].
  - intros _. exists a. split; [now left | exact Ha].
Qed.

(** The result on a consistent index, for the similarities [sims]. *)
Lemma search_hospitals_selected (self : HospitalRAG) (q : string) (k : Z)
    (thr : Q) (v : Vectorizer) (matrix : list (list Q)) (qv : list Q) :
  (forall s, Permutation (argsort s) (seq 0 (List.length s))) ->
  vectorizer self = Some v -> tfidf_matrix self = Some matrix ->
  transform v q = Ok qv ->
  Forall (fun row => List.length row = List.length qv) matrix ->
  List.length (metadata self) <= List.length (documents self) ->
  let sims :=
    map (fun row => dot (normalize l2norm qv) (normalize l2norm row)) matrix in
  search_hospitals argsort l2norm self q k thr
  = Ok (map (entry_at self sims)
          (filter (kept self sims thr) (slice_to k (rev (argsort sims))))).
Proof.
  intros Hperm Hv Hm Hq Hwidth Hdocs sims.
  unfold search_hospitals. rewrite Hv, Hm, Hq. cbn [bind].
  unfold cosine_similarity.
  assert (Hw : forallb (fun row => List.length row =? List.length qv) matrix
               = true).
  { apply forallb_forall. intros row Hrow. apply Nat.eqb_eq.
    rewrite Forall_forall in Hwidth. now apply Hwidth. }
  rewrite Hw. cbn [bind]. fold sims.
  destruct (collect_ok self sims thr (slice_to k (rev (argsort sims))) [])
    as [hs Hhs]; [|exact Hdocs|].
  - destruct (slice_to_prefix k (rev (argsort sims))) as [n ->].
    apply Forall_firstn_in, Forall_forall. intros idx Hidx.
    apply in_rev in Hidx.
    apply (Permutation_in idx (Hperm sims)) in Hidx.
    apply in_seq in Hidx. lia.
  - rewrite Hhs. cbn [try_except].
    now rewrite (collect_spec self sims thr _ [] hs Hhs).
Qed.

(** X15. On a consistent index (the vectorizer transforms the query, the
    matrix has a row of the width of the query vector for every metadata
    entry, every metadata entry has its document) and with an argsort that
    returns every index once in ascending order of score,
    [search_hospitals] returns the best documents for the cosine
    similarities of the query: the entries of distinct documents that all
    reach the threshold, at most [k] of them for a non-negative [k]; no
    document left out although it reaches the threshold has a higher
    similarity than a returned one; and when fewer than [k] are returned,
    every document that reaches the threshold is returned. *)
Theorem no_better_document_left_out (self : HospitalRAG) (q : string)
    (k : Z) (thr : Q) (v : Vectorizer) (matrix : list (list Q))
    (qv : list Q) :
  (forall s, StronglySorted (fun i j => nth i s 0 <= nth j s 0)%Q (argsort s)) ->
  (forall s, Permutation (argsort s) (seq 0 (List.length s))) ->
  vectorizer self = Some v -> tfidf_matrix self = Some matrix ->
  transform v q = Ok qv ->
  Forall (fun row => List.length row = List.length qv) matrix ->
  List.length matrix = List.length (metadata self) ->
  List.length (metadata self) <= List.length (documents self) ->
  (0 <= k)%Z ->
  let sims :=
    map (fun row => dot (normalize l2norm qv) (normalize l2norm row)) matrix in
  exists idxs : list nat,
    search_hospitals argsort l2norm self q k thr
    = Ok (map (entry_at self sims) idxs)
    /\ NoDup idxs
    /\ (Z.of_nat (List.length idxs) <= k)%Z
    /\ (forall i, In i idxs ->
          i < List.length matrix /\ (thr <= nth i sims 0)%Q)
    /\ (forall i j,
          In i idxs -> j < List.length matrix -> ~ In j idxs ->
          (thr <= nth j sims 0)%Q ->
          (nth j sims 0 <= nth i sims 0)%Q)
    /\ ((Z.of_nat (List.length idxs) < k)%Z ->
        forall j, j < List.length matrix -> (thr <= nth j sims 0)%Q ->
                  In j idxs).
Proof.
  intros Hsorted Hperm Hv Hm Hq Hwidth Hmeta Hdocs Hk sims.
  assert (Hlen : List.length sims = List.length matrix)
    by (unfold sims; apply length_map).
  set (order := rev (argsort sims)).
  assert (Hall : forall j, In j order <-> j < List.length matrix).
  { intro j. unfold order. rewrite <- in_rev, <- Hlen. split.
    - intro H. apply (Permutation_in j (Hperm sims)) in H.
      apply in_seq in H. lia.
    - intro H. apply (Permutation_in j (Permutation_sym (Hperm sims))).
      apply in_seq. lia. }
  assert (Hkept : forall j, j < List.length matrix ->
                            (kept self sims thr j = true
                             <-> (thr <= nth j sims 0)%Q)).
  { intros j Hj. unfold kept.
    replace (j <? List.length (metadata self)) with true
      by (symmetry; apply Nat.ltb_lt; lia).
    cbn [andb]. apply Qle_bool_iff. }
  assert (Hdesc : StronglySorted (fun x y => nth y sims 0 <= nth x sims 0)%Q
                    order).
  { apply (StronglySorted_rev (fun i j => nth i sims 0 <= nth j sims 0)%Q).
    apply Hsorted. }
  assert (Hnodup : NoDup order).
  { apply NoDup_rev. apply (Permutation_NoDup (Permutation_sym (Hperm sims))).
    apply seq_NoDup. }
  set (n := Z.to_nat k).
  exists (filter (kept self sims thr) (firstn n order)).
  split.
  { rewrite (search_hospitals_selected self q k thr v matrix qv Hperm Hv Hm
               Hq Hwidth Hdocs).
    fold sims order. now rewrite (slice_to_nonneg k order Hk). }
  split; [now apply NoDup_filter, NoDup_firstn|].
  split.
  { pose proof (filter_length_le (kept self sims thr) (firstn n order)).
    pose proof (length_firstn n order). unfold n in *. lia. }
  assert (Htop : forall i, In i (firstn n order) -> In i order).
  { intros i Hi. rewrite <- (firstn_skipn n order).
    apply in_or_app. now left. }
  split; [|split].
  - intros i Hi. apply filter_In in Hi. destruct Hi as [Hi Hki].
    assert (Hlt : i < List.length matrix) by (apply Hall; now apply Htop).
    split; [exact Hlt | now apply Hkept].
  - intros i j Hi Hj Hnot Hthr.
    apply filter_In in Hi. destruct Hi as [Hi _].
    assert (Hjin : In j order) by now apply Hall.
    rewrite <- (firstn_skipn n order) in Hjin, Hdesc.
    apply in_app_or in Hjin. destruct Hjin as [Hjtop|Hjrest].
    + exfalso. apply Hnot. apply filter_In. split; [exact Hjtop|].
      now apply Hkept.
    + exact (StronglySorted_app_inv _ _ _ Hdesc i j Hi Hjrest).
  - intros Hfew j Hj Hthr.
    assert (Hjin : In j order) by now apply Hall.
    rewrite <- (firstn_skipn n order) in Hjin.
    apply in_app_or in Hjin. destruct Hjin as [Hjtop|Hjrest].
    + apply filter_In. split; [exact Hjtop | now apply Hkept].
    + exfalso.
      assert (Hfull : List.length (firstn n order) = n).
      { rewrite length_firstn. apply Nat.min_l.
        destruct (Nat.le_gt_cases n (List.length order)) as [H|H];
          [exact H|].
        rewrite skipn_all2 in Hjrest by lia. contradiction. }
      destruct (filter_short (kept self sims thr) (firstn n order))
        as (x & Hx & Hfx); [unfold n in *; lia|].
      assert (Hxlt : x < List.length matrix) by (apply Hall; now apply Htop).
      assert (Hle : (nth j sims 0 <= nth x sims 0)%Q).
      { rewrite <- (firstn_skipn n order) in Hdesc.
        exact (StronglySorted_app_inv _ _ _ Hdesc x j Hx Hjrest). }
      assert (Hxk : kept self sims thr x = true).
      { apply Hkept; [exact Hxlt|]. now apply Qle_trans with (nth j sims 0%Q). }
      congruence.
Qed.

(** X17. Against a text data frame and for a non-negative [k], the result
    of [search_by_name_and_city] starts with the first [k] rows that match
    the name (and the city, when one is given), in catalogue order; when
    at least [k] rows match, these are the whole result and the vector
    index has no part in it. *)
Theorem exact_matches_come_first (self : HospitalRAG) (df : DataFrame)
    (nm : string) (cty : option string) (k : Z) :
  hospitals_df self = Some df -> str_columns df = true -> (0 <= k)%Z ->
  let matches := filter (row_matches nm cty) (rows df) in
  exists fallback,
    search_by_name_and_city argsort l2norm self nm cty k
    = Ok (map exact_entry (firstn (Z.to_nat k) matches) ++ fallback)%list
    /\ ((k <= Z.of_nat (List.length matches))%Z -> fallback = []).
Proof.
  intros Hdf Hstr Hk matches.
  unfold search_by_name_and_city, exact_rows. rewrite Hdf, Hstr.
  destruct (search_hospitals_ok argsort l2norm self (fallback_query nm cty) k
              default_threshold) as [sem Hsem].
  cbn [bind]. rewrite Hsem. cbn [bind]. fold matches.
  rewrite (slice_to_nonneg k matches Hk).
  set (hs := map exact_entry (firstn (Z.to_nat k) matches)).
  assert (Hlen : List.length hs = Nat.min (Z.to_nat k) (List.length matches))
    by (unfold hs; now rewrite length_map, length_firstn).
  destruct (Z.ltb_spec (Z.of_nat (List.length hs)) k) as [Hlt|Hge].
  - destruct (extend_spec (map (fun h => lower (name h)) hs) k sem hs)
      as (ext & Hext & _).
    exists (firstn (Z.to_nat k - List.length hs) ext).
    cbn [bind try_except]. rewrite Hext, (slice_to_nonneg k _ Hk).
    rewrite firstn_app, (firstn_all2 hs) by lia.
    split; [reflexivity|]. intro Hmany. lia.
  - exists []. cbn [bind try_except].
    rewrite (slice_to_nonneg k _ Hk), (firstn_all2 hs) by lia.
    now rewrite app_nil_r.
Qed.

End RankingFacts.

Lemma argsort_insertion_perm (s : list Q) :
  Permutation (argsort_insertion s) (seq 0 (List.length s)).
Proof.
  unfold argsort_insertion.
  apply NoDup_Permutation.
  - induction (seq_NoDup (List.length s) 0) as [|i idxs Hi Hnd IH];
      simpl; [constructor|].
    assert (Hins : forall l, NoDup l -> ~ In i l ->
                             NoDup (insert_index s i l)).
    { induction l as [|j l IHl]; intros Hl Hnot; simpl;
        [repeat constructor; intros []|].
      destruct (Qle_bool (nth i s 0%Q) (nth j s 0%Q)); [now constructor|].
      inversion Hl as [|? ? Hj Hl']; subst. constructor.
      - intro H. apply insert_index_In in H. destruct H as [->|H].
        + apply Hnot. now left.
        + contradiction.
      - apply IHl; [assumption|]. intro H. apply Hnot. now right. }
    apply Hins; [exact IH|]. intro H. apply insertion_In in H. contradiction.
  - apply seq_NoDup.
  - intro x. apply insertion_In.
Qed.


Lemma no_better_document_left_out_witness :
  let sims :=
    map (fun row =>
           dot (normalize l2norm_floor [1; 0; 1; 0]%Q)
             (normalize l2norm_floor row))
      dummy_matrix in
  exists idxs : list nat,
    search_hospitals argsort_insertion l2norm_floor dummy_rag
      "apollo or fortis" 1 default_threshold
    = Ok (map (entry_at dummy_rag sims) idxs)
    /\ NoDup idxs
    /\ (Z.of_nat (List.length idxs) <= 1)%Z
    /\ (forall i, In i idxs ->
          i < List.length dummy_matrix
          /\ (default_threshold <= nth i sims 0)%Q)
    /\ (forall i j,
          In i idxs -> j < List.length dummy_matrix -> ~ In j idxs ->
          (default_threshold <= nth j sims 0)%Q ->
          (nth j sims 0 <= nth i sims 0)%Q)
    /\ ((Z.of_nat (List.length idxs) < 1)%Z ->
        forall j, j < List.length dummy_matrix ->
                  (default_threshold <= nth j sims 0)%Q -> In j idxs).
Proof.
  apply (no_better_document_left_out argsort_insertion l2norm_floor dummy_rag
           "apollo or fortis" 1 default_threshold brand_vectorizer
           dummy_matrix [1; 0; 1; 0]%Q).
  - exact argsort_insertion_sorted.
  - exact argsort_insertion_perm.
  - reflexivity.
  - reflexivity.
  - reflexivity.
  - repeat constructor.
  - reflexivity.
  - simpl. lia.
  - lia.
Defined.

Lemma search_hospitals_on_consistent_index_witness :
  let sims :=
    map (fun row =>
           dot (normalize l2norm_floor [1; 0; 0; 1]%Q)
             (normalize l2norm_floor row))
      dummy_matrix in
  search_hospitals argsort_insertion l2norm_floor dummy_rag
    "apollo in bangalore" 3 default_threshold
  = Ok (map (entry_at dummy_rag sims)
          (filter (kept dummy_rag sims default_threshold)
             (slice_to 3 (rev (argsort_insertion sims))))).
Proof.
  apply (search_hospitals_on_consistent_index argsort_insertion l2norm_floor
           dummy_rag "apollo in bangalore" 3 default_threshold
           brand_vectorizer dummy_matrix [1; 0; 0; 1]%Q).
  - exact argsort_insertion_perm.
  - reflexivity.
  - reflexivity.
  - reflexivity.
  - repeat constructor.
  - simpl. lia.
Defined.

Lemma exact_matches_come_first_witness :
  exists fallback,
    search_by_name_and_city argsort_insertion l2norm_floor dummy_rag
      "hospital" (Some "bangalore") 2
    = Ok (map exact_entry
            (firstn 2 (filter (row_matches "hospital" (Some "bangalore"))
                         dummy_rows))
          ++ fallback)%list
    /\ fallback = [].
Proof.
  destruct (exact_matches_come_first argsort_insertion l2norm_floor dummy_rag
              {| rows := dummy_rows; str_columns := true |} "hospital"
              (Some "bangalore") 2)
    as (fallback & Hres & Hnone); [reflexivity | reflexivity | lia |].
  exists fallback. split; [exact Hres|]. apply Hnone. simpl. lia.
Defined.

(** ** Loading the catalogue *)

Lemma key_eqb_eq (a b : string * string) : key_eqb a b = true <-> a = b.
Proof.
  unfold key_eqb. destruct a as [a1 a2], b as [b1 b2]. simpl.
  rewrite andb_true_iff, !String.eqb_eq. split.
  - now intros [-> ->].
  - now intros [= -> ->].
Qed.

Lemma seen_iff (k : string * string) (seen : list (string * string)) :
  existsb (key_eqb k) seen = true <-> In k seen.
Proof.
  rewrite existsb_exists. split.
  - intros (x & Hin & Heq). apply key_eqb_eq in Heq. now subst.
  - intro Hin. exists k. split; [exact Hin | now apply key_eqb_eq].
Qed.

Lemma seen_false (k : string * string) (seen : list (string * string)) :
  existsb (key_eqb k) seen = false -> ~ In k seen.
Proof.
  intros H Hin. apply seen_iff in Hin. congruence.
Qed.

(** A row that [drop_duplicates] keeps has a key that was not seen, neither
    before the call nor in the rows in front of it. *)
Lemma drop_duplicates_In (l : list (nat * Row)) (seen : list (string * string))
    (i : nat) (r : Row) :
  In (i, r) (drop_duplicates seen l) ->
  exists l1 l2,
    l = (l1 ++ (i, r) :: l2)%list
    /\ ~ In (dedup_key r) seen
    /\ forall x, In x l1 -> dedup_key (snd x) <> dedup_key r.
Proof.
  revert seen; induction l as [|[i0 r0] l IH]; intros seen H; [contradiction|].
  cbn [drop_duplicates] in H.
  destruct (existsb (key_eqb (dedup_key r0)) seen) eqn:Hseen.
  - destruct (IH seen H) as (l1 & l2 & -> & Hnot & Hfront).
    exists ((i0, r0) :: l1), l2. split; [reflexivity|]. split; [exact Hnot|].
    intros x [<-|Hx]; [|now apply Hfront].
    simpl. intro Heq. apply Hnot. rewrite <- Heq. now apply seen_iff.
  - destruct H as [[= <- <-]|H].
    + exists [], l. split; [reflexivity|].
      split; [now apply seen_false | intros x []].
    + destruct (IH (dedup_key r0 :: seen) H) as (l1 & l2 & -> & Hnot & Hfront).
      exists ((i0, r0) :: l1), l2. split; [reflexivity|]. split.
      * intro Hin. apply Hnot. now right.
      * intros x [<-|Hx]; [|now apply Hfront].
        simpl. intro Heq. apply Hnot. now left.
Qed.

Lemma drop_duplicates_NoDup (l : list (nat * Row))
    (seen : list (string * string)) :
  NoDup (map (fun ir => dedup_key (snd ir)) (drop_duplicates seen l)).
Proof.
  revert seen; induction l as [|[i0 r0] l IH]; intro seen; [constructor|].
  cbn [drop_duplicates].
  destruct (existsb (key_eqb (dedup_key r0)) seen); [apply IH|].
  cbn [map snd]. constructor; [|apply IH].
  intro Hin. apply in_map_iff in Hin. destruct Hin as ([i r] & Hkey & Hin).
  apply drop_duplicates_In in Hin. destruct Hin as (_ & _ & _ & Hnot & _).
  apply Hnot. left. now rewrite <- Hkey.
Qed.

Lemma drop_duplicates_complete (l : list (nat * Row))
    (seen : list (string * string)) (x : nat * Row) :
  In x l ->
  In (dedup_key (snd x)) seen
  \/ In (dedup_key (snd x))
       (map (fun ir => dedup_key (snd ir)) (drop_duplicates seen l)).
Proof.
  revert seen; induction l as [|[i0 r0] l IH]; intros seen H; [contradiction|].
  cbn [drop_duplicates].
  destruct (existsb (key_eqb (dedup_key r0)) seen) eqn:Hseen.
  - destruct H as [<-|H]; [left; now apply seen_iff | now apply IH].
  - cbn [map snd]. destruct H as [<-|H]; [right; now left|].
    destruct (IH (dedup_key r0 :: seen) H) as [[Heq|Hin]|Hin].
    + right. left. exact Heq.
    + now left.
    + right. now right.
Qed.

Lemma drop_duplicates_labels (l : list (nat * Row))
    (seen : list (string * string)) :
  StronglySorted lt (map fst l) ->
  StronglySorted lt (map fst (drop_duplicates seen l)).
Proof.
  revert seen; induction l as [|[i0 r0] l IH]; intros seen H; [constructor|].
  cbn [map fst] in H. inversion H as [|? ? Hs Hall]; subst.
  cbn [drop_duplicates].
  destruct (existsb (key_eqb (dedup_key r0)) seen); [now apply IH|].
  cbn [map fst]. constructor; [now apply IH|].
  apply Forall_forall. intros j Hj. apply in_map_iff in Hj.
  destruct Hj as ([i r] & <- & Hin).
  apply drop_duplicates_In in Hin. destruct Hin as (l1 & l2 & -> & _ & _).
  rewrite Forall_forall in Hall. apply Hall.
  apply in_map_iff. exists (i, r). split; [reflexivity|].
  apply in_or_app. right. now left.
Qed.

Lemma nth_error_labelled (rs : list Row) (a j : nat) :
  nth_error (combine (seq a (List.length rs)) rs) j
  = option_map (fun r => (a + j, r)) (nth_error rs j).
Proof.
  revert a j; induction rs as [|r rs IH]; intros a j.
  - now destruct j.
  - destruct j as [|j]; simpl.
    + now rewrite Nat.add_0_r.
    + rewrite IH. now rewrite Nat.add_succ_r.
Qed.

Lemma labelled_sorted (rs : list Row) (a : nat) :
  StronglySorted lt (map fst (combine (seq a (List.length rs)) rs)).
Proof.
  revert a; induction rs as [|r rs IH]; intro a; [constructor|].
  simpl. constructor; [apply IH|].
  apply Forall_forall. intros j Hj. apply in_map_iff in Hj.
  destruct Hj as ([i r'] & <- & Hin). apply in_combine_l in Hin.
  apply in_seq in Hin. simpl. lia.
Qed.

(** X18. Loading keeps, of the rows of the file (missing cells read as
    empty), exactly the first row of every pair of hospital name and city:
    no two kept rows share the pair, every row of the file has its pair
    among the kept rows, a kept row carries as label its position in the
    file, no row before it has its pair, and the labels are in increasing
    order. *)
Theorem load_keeps_first_of_each_pair (raw : list RawRow) :
  let file := map fillna raw in
  let df := load_rows raw in
  NoDup (map (fun ir => dedup_key (snd ir)) df)
  /\ (forall r, In r file ->
        exists i r', In (i, r') df /\ dedup_key r' = dedup_key r)
  /\ (forall i r, In (i, r) df ->
        nth_error file i = Some r
        /\ forall j r', j < i -> nth_error file j = Some r' ->
                        dedup_key r' <> dedup_key r)
  /\ StronglySorted lt (map fst df).
Proof.
  intros file df. unfold df, load_rows. fold file.
  replace (List.length raw) with (List.length file)
    by (unfold file; apply length_map).
  split; [apply drop_duplicates_NoDup|]. split; [|split].
  - intros r Hr. apply In_nth_error in Hr. destruct Hr as [p Hp].
    assert (Hin : In (p, r) (combine (seq 0 (List.length file)) file)).
    { apply (nth_error_In _ p). rewrite nth_error_labelled, Hp. reflexivity. }
    destruct (drop_duplicates_complete _ [] (p, r) Hin) as [[]|Hk].
    apply in_map_iff in Hk. destruct Hk as ([i r'] & Hkey & Hkept).
    now exists i, r'.
  - intros i r Hin. apply drop_duplicates_In in Hin.
    destruct Hin as (l1 & l2 & Hl & _ & Hfront).
    assert (Hat : nth_error (combine (seq 0 (List.length file)) file)
                    (List.length l1) = Some (i, r)).
    { rewrite Hl, nth_error_app2, Nat.sub_diag by lia. reflexivity. }
    rewrite nth_error_labelled in Hat.
    destruct (nth_error file (List.length l1)) as [r0|] eqn:Hr0;
      [|discriminate].
    simpl in Hat. injection Hat as <- <-. split; [exact Hr0|].
    intros j r' Hj Hr'.
    assert (Hjat : nth_error (combine (seq 0 (List.length file)) file) j
                   = Some (j, r')).
    { rewrite nth_error_labelled, Hr'. reflexivity. }
    rewrite Hl, nth_error_app1 in Hjat by exact Hj.
    apply nth_error_In in Hjat. exact (Hfront (j, r') Hjat).
  - apply drop_duplicates_labels, labelled_sorted.
Qed.

(** X19. On the engine built from a file, every entry [search_hospitals]
    returns describes a kept row of the file: its name, city and address
    are those of the row with the white space around them removed, and
    its text is the document of that row. *)
Theorem results_describe_catalogue_rows (argsort : list Q -> list nat)
    (l2norm : list Q -> Q) (raw : list RawRow) (v : Vectorizer)
    (matrix : list (list Q)) (q : string) (k : Z) (thr : Q)
    (hs : list Hospital) :
  search_hospitals argsort l2norm (indexed raw v matrix) q k thr = Ok hs ->
  Forall
    (fun h =>
       exists i r,
         In (i, r) (load_rows raw)
         /\ name h = strip (hospital_name r)
         /\ city h = strip (row_city r)
         /\ address h = strip (row_address r)
         /\ full_text h = Some (document_of r))
    hs.
Proof.
  intro H.
  destruct (search_hospitals_cases argsort l2norm (indexed raw v matrix) q k thr)
    as [H0|(v' & matrix' & qv & sims & _ & _ & _ & _ & H1)].
  - rewrite H0 in H. injection H as <-. constructor.
  - rewrite H1 in H. injection H as <-.
    apply Forall_map, Forall_forall. intros idx Hidx.
    apply filter_In in Hidx. destruct Hidx as [_ Hkept].
    unfold kept in Hkept. apply andb_prop in Hkept.
    destruct Hkept as [Hlt _]. apply Nat.ltb_lt in Hlt.
    cbn [indexed metadata] in Hlt. rewrite length_map in Hlt.
    destruct (nth_error (load_rows raw) idx) as [[i r]|] eqn:Hrow.
    2:{ apply nth_error_None in Hrow. lia. }
    exists i, r. split; [now apply (nth_error_In _ idx)|].
    unfold entry_at. cbn [indexed metadata documents name city address
                          full_text].
    rewrite (nth_error_nth _ _ default_meta
               (map_nth_error meta_of idx (load_rows raw) Hrow)).
    rewrite (nth_error_nth _ _ ""
               (map_nth_error (fun ir => document_of (snd ir)) idx
                  (load_rows raw) Hrow)).
    repeat split.
Qed.

Lemma results_describe_catalogue_rows_witness :
  Forall
    (fun h =>
       exists i r,
         In (i, r) (load_rows raw_catalogue)
         /\ name h = strip (hospital_name r)
         /\ city h = strip (row_city r)
         /\ address h = strip (row_address r)
         /\ full_text h = Some (document_of r))
    [entry_at (indexed raw_catalogue brand_vectorizer
                 [[1; 0; 0; 1]; [0; 0; 1; 0]]%Q)
       [0; 1]%Q 1].
Proof.
  apply (results_describe_catalogue_rows argsort_insertion l2norm_floor
           raw_catalogue brand_vectorizer [[1; 0; 0; 1]; [0; 0; 1; 0]]%Q
           "fortis" 5 default_threshold).
  vm_compute. reflexivity.
Defined.

(** ** The chat endpoint *)

Lemma has_char_append (c : ascii) (a b : string) :
  has_char c (a ++ b) = has_char c a || has_char c b.
Proof.
  induction a as [|x a IH]; [reflexivity|].
  simpl. now rewrite IH, orb_assoc.
Qed.

Lemma startswith_nil (s : string) : startswith s "" = true.
Proof. now destruct s. Qed.

(** Replacing a character by a space removes it and brings in no
    character other than the space. *)
Lemma replace_char (c d : ascii) (s : string) :
  d <> " "%char ->
  has_char d (replace (String c EmptyString) " " s)
  = if Ascii.eqb c d then false else has_char d s.
Proof.
  intro Hd. unfold replace.
  assert (Hsp : Ascii.eqb d " " = false) by now apply Ascii.eqb_neq.
  induction s as [|a s IH]; [now destruct (Ascii.eqb c d)|].
  cbn [replace_from startswith String.length Nat.sub].
  rewrite startswith_nil.
  destruct (Ascii.eqb_spec c a) as [<-|Hca]; cbn [andb].
  - cbn [String.append has_char]. rewrite Hsp, IH. cbn [orb].
    destruct (Ascii.eqb_spec c d) as [Hcd|Hcd]; [reflexivity|].
    rewrite Ascii.eqb_sym. apply Ascii.eqb_neq in Hcd. now rewrite Hcd.
  - cbn [has_char]. rewrite IH.
    destruct (Ascii.eqb_spec c d) as [<-|Hcd]; [|reflexivity].
    apply Ascii.eqb_neq in Hca. rewrite Hca. reflexivity.
Qed.

Lemma clean_header_safe (s : string) :
  has_char "010" (clean_header s) = false
  /\ has_char "013" (clean_header s) = false.
Proof.
  unfold clean_header, newline, carriage_return.
  rewrite !replace_char by discriminate. now split.
Qed.

Section EndpointFacts.

Variable list_set : list string -> list string.
Variable argsort : list Q -> list nat.
Variable l2norm : list Q -> Q.
Variable chat_model : nat -> string -> string -> result string.
Variable str_of_exn : exn -> string.

Lemma process_query_ok (self : LoopAIAgent) (q : string) (first : bool) :
  exists answer,
    snd (process_query list_set argsort l2norm chat_model self q first)
    = Ok answer.
Proof.
  unfold process_query.
  destruct (process_query_body list_set argsort l2norm chat_model self q first)
    as [self' [answer|e]]; eexists; reflexivity.
Qed.

Lemma get_transcript_status (dg : Deepgram) (req : ChatRequest)
    (query : option string) (err : HTTPException) :
  get_transcript str_of_exn dg req query = inr err ->
  (status_code err = 400 \/ status_code err = 500)
  /\ startswith (detail err) "AI processing failed" = false.
Proof.
  unfold get_transcript, unexpected.
  destruct (given query); [discriminate|].
  destruct (audio req) as [[audio_data|e]|].
  - destruct (transcribe dg audio_data) as [transcript|e].
    + destruct (given transcript) as [t|].
      * destruct (String.eqb (strip t) ""); [|discriminate].
        intros [= <-]. simpl. tauto.
      * intros [= <-]. simpl. tauto.
    + intros [= <-]. simpl. tauto.
  - intros [= <-]. simpl. tauto.
  - intros [= <-]. simpl. tauto.
Qed.

(** X20. A call of the chat endpoint that fails raises an HTTP error with
    status 400 or 500, never one that reports a failure of the agent; a
    400 leaves the agent and the session flag as they were; and without a
    Deepgram client every call fails with status 500 before the agent is
    asked. *)
Theorem chat_errors (srv : Server) (req : ChatRequest) :
  (forall srv' err,
     chat list_set argsort l2norm chat_model str_of_exn srv req
     = (srv', inr err) ->
     (status_code err = 400 \/ status_code err = 500)
     /\ startswith (detail err) "AI processing failed" = false
     /\ (status_code err = 400 -> srv' = srv))
  /\ (deepgram srv = None ->
      exists err,
        chat list_set argsort l2norm chat_model str_of_exn srv req
        = (srv, inr err)
        /\ status_code err = 500).
Proof.
  unfold chat, unexpected. split.
  - intros srv' err.
    destruct (if contains "application/json" (content_type req)
              then json_text_query req else Ok (text_query req))
      as [query|e].
    2:{ intros [= <- <-]. simpl. repeat split; auto; try discriminate. }
    destruct (deepgram srv) as [dg|].
    2:{ intros [= <- <-]. simpl. repeat split; auto; try discriminate. }
    destruct (get_transcript str_of_exn dg req query) as [transcript|err0]
      eqn:Ht.
    2:{ intros [= <- <-].
        destruct (get_transcript_status dg req query err0 Ht) as [Hs Hd].
        repeat split; auto. }
    destruct (process_query_ok (agent srv) transcript (is_first_message srv))
      as [answer ->].
    destruct (speak dg answer) as [chunks|e].
    + destruct (String.eqb (String.concat "" chunks) ""); [|discriminate].
      intros [= <- <-]. simpl. repeat split; auto; discriminate.
    + intros [= <- <-]. simpl. repeat split; auto; discriminate.
  - intros ->.
    destruct (if contains "application/json" (content_type req)
              then json_text_query req else Ok (text_query req))
      as [query|e]; eexists; split; reflexivity.
Qed.

(** X21. A call of the chat endpoint that succeeds returns a non-empty
    WAV body; no header value holds a line feed or a carriage return; the
    agent has processed the transcript exactly once, with the session flag
    as it stood, and the answer it gave is the one in the header; the flag
    is off afterwards. *)
Theorem chat_response (srv srv' : Server) (req : ChatRequest)
    (resp : ChatResponse) :
  chat list_set argsort l2norm chat_model str_of_exn srv req
  = (srv', inl resp) ->
  body resp <> "" /\ media_type resp = "audio/wav"
  /\ Forall
       (fun kv =>
          has_char "010" (snd kv) = false /\ has_char "013" (snd kv) = false)
       (headers resp)
  /\ is_first_message srv' = false
  /\ deepgram srv' = deepgram srv
  /\ exists transcript answer,
       transcript <> ""
       /\ process_query list_set argsort l2norm chat_model (agent srv)
            transcript (is_first_message srv)
          = (agent srv', Ok answer)
       /\ headers resp
          = [("Content-Disposition", "attachment; filename=response.wav");
             ("X-Transcript", clean_header transcript);
             ("X-AI-Response", clean_header answer)].
Proof.
  unfold chat.
  destruct (if contains "application/json" (content_type req)
            then json_text_query req else Ok (text_query req))
    as [query|e]; [|discriminate].
  destruct (deepgram srv) as [dg|] eqn:Hdg; [|discriminate].
  destruct (get_transcript str_of_exn dg req query) as [transcript|err0]
    eqn:Ht; [|discriminate].
  destruct (process_query list_set argsort l2norm chat_model (agent srv)
              transcript (is_first_message srv)) as [self' [answer|e]] eqn:Hpq;
    cbn [fst snd]; [|discriminate].
  destruct (speak dg answer) as [chunks|e]; [|discriminate].
  destruct (String.eqb_spec (String.concat "" chunks) "") as [|Hne];
    [discriminate|].
  intros [= <- <-]. cbn [body media_type headers is_first_message deepgram agent].
  split; [exact Hne|]. split; [reflexivity|]. split.
  - repeat constructor; cbn [snd]; try reflexivity; apply clean_header_safe.
  - split; [reflexivity|]. split; [reflexivity|].
    exists transcript, answer. split; [|split; [exact Hpq | reflexivity]].
    unfold get_transcript in Ht.
    destruct (given query) as [t|] eqn:Hq.
    + injection Ht as <-. destruct query as [[|c s]|]; try discriminate.
      injection Hq as <-. discriminate.
    + destruct (audio req) as [[audio_data|e]|]; try discriminate.
      destruct (transcribe dg audio_data) as [tr|e]; try discriminate.
      destruct (given tr) as [t|] eqn:Htr; try discriminate.
      destruct (String.eqb (strip t) ""); try discriminate.
      injection Ht as <-. destruct tr as [[|c s]|]; try discriminate.
      injection Htr as <-. discriminate.
Qed.

(** X22. A request that carries a non-empty text, in its JSON body or in
    the form field, is handled exactly as the plain JSON request with that
    text: an uploaded audio file is neither read nor transcribed. *)
Theorem chat_text_first (srv : Server) (req : ChatRequest) (t : string) :
  (if contains "application/json" (content_type req)
   then json_text_query req else Ok (text_query req)) = Ok (Some t) ->
  t <> "" ->
  chat list_set argsort l2norm chat_model str_of_exn srv req
  = chat list_set argsort l2norm chat_model str_of_exn srv (text_request t).
Proof.
  intros Hq Ht. unfold chat. rewrite Hq.
  cbn [text_request content_type json_text_query].
  replace (contains "application/json" "application/json") with true
    by reflexivity.
  destruct (deepgram srv) as [dg|]; [|reflexivity].
  unfold get_transcript. destruct t as [|c s]; [contradiction|].
  reflexivity.
Qed.

(** X23. When the speech synthesis raises, the call fails with status 500
    although the agent has already processed the utterance: the agent
    keeps the state the call to [process_query] left, the recorded turn
    included, and the session flag is off. *)
Theorem chat_keeps_turn_when_speech_fails (srv : Server) (dg : Deepgram)
    (req : ChatRequest) (t : string) :
  deepgram srv = Some dg ->
  (if contains "application/json" (content_type req)
   then json_text_query req else Ok (text_query req)) = Ok (Some t) ->
  t <> "" ->
  (forall text, exists e, speak dg text = Raise e) ->
  exists err,
    chat list_set argsort l2norm chat_model str_of_exn srv req
    = ({| deepgram := deepgram srv;
          agent :=
            fst (process_query list_set argsort l2norm chat_model (agent srv)
                   t (is_first_message srv));
          is_first_message := false |},
       inr err)
    /\ status_code err = 500.
Proof.
  intros Hdg Hq Ht Hspeak. unfold chat. rewrite Hq, Hdg.
  unfold get_transcript. destruct t as [|c s]; [contradiction|].
  cbn [given].
  destruct (process_query_ok (agent srv) (String c s) (is_first_message srv))
    as [answer Ha].
  rewrite Ha. destruct (Hspeak answer) as [e ->].
  eexists. split; reflexivity.
Qed.

End EndpointFacts.

Lemma chat_errors_witness :
  exists err,
    chat distinct_order argsort_insertion l2norm_floor chat_terse
      str_of_exn_name
      {| deepgram := None; agent := fresh_agent flat_rag;
         is_first_message := true |}
      (text_request "find hospital in delhi")
    = ({| deepgram := None; agent := fresh_agent flat_rag;
          is_first_message := true |}, inr err)
    /\ status_code err = 500.
Proof.
  destruct (chat_errors distinct_order argsort_insertion l2norm_floor
              chat_terse str_of_exn_name
              {| deepgram := None; agent := fresh_agent flat_rag;
                 is_first_message := true |}
              (text_request "find hospital in delhi")) as [_ Hnone].
  apply Hnone. reflexivity.
Defined.

Lemma chat_response_witness :
  let out :=
    chat distinct_order argsort_insertion l2norm_floor chat_terse
      str_of_exn_name stub_server (text_request "find hospital in delhi") in
  exists resp,
    snd out = inl resp /\ body resp <> ""
    /\ is_first_message (fst out) = false.
Proof.
  intro out.
  destruct out as [srv' [resp|err]] eqn:Hout; [|vm_compute in Hout; discriminate].
  destruct (chat_response distinct_order argsort_insertion l2norm_floor
              chat_terse str_of_exn_name stub_server srv'
              (text_request "find hospital in delhi") resp Hout)
    as (Hbody & _ & _ & Hflag & _).
  exists resp. repeat split; assumption.
Defined.

Lemma chat_text_first_witness :
  chat distinct_order argsort_insertion l2norm_floor chat_terse
    str_of_exn_name stub_server
    {| content_type := "multipart/form-data"; json_text_query := Ok None;
       audio := Some (Ok "RIFF"); text_query := Some "is apollo in network" |}
  = chat distinct_order argsort_insertion l2norm_floor chat_terse
      str_of_exn_name stub_server (text_request "is apollo in network").
Proof.
  apply (chat_text_first distinct_order argsort_insertion l2norm_floor
           chat_terse str_of_exn_name stub_server
           {| content_type := "multipart/form-data";
              json_text_query := Ok None; audio := Some (Ok "RIFF");
              text_query := Some "is apollo in network" |}
           "is apollo in network");
    [reflexivity | discriminate].
Defined.

Lemma chat_keeps_turn_when_speech_fails_witness :
  let mute :=
    {| transcribe := fun _ => Ok None;
       speak := fun _ => Raise (RuntimeError "no voice") |} in
  let srv :=
    {| deepgram := Some mute; agent := fresh_agent flat_rag;
       is_first_message := true |} in
  exists err,
    chat distinct_order argsort_insertion l2norm_floor chat_terse
      str_of_exn_name srv (text_request "find hospital in delhi")
    = ({| deepgram := Some mute;
          agent :=
            fst (process_query distinct_order argsort_insertion l2norm_floor
                   chat_terse (fresh_agent flat_rag) "find hospital in delhi"
                   true);
          is_first_message := false |},
       inr err)
    /\ status_code err = 500.
Proof.
  intros mute srv.
  apply (chat_keeps_turn_when_speech_fails distinct_order argsort_insertion
           l2norm_floor chat_terse str_of_exn_name srv mute
           (text_request "find hospital in delhi") "find hospital in delhi").
  - reflexivity.
  - reflexivity.
  - discriminate.
  - intro text. now exists (RuntimeError "no voice").
Defined.

(** ** Retrieval and the conversation *)

(** X24. The hospitals retrieved for an utterance do not depend on the
    conversation memory: the city a follow-up takes from the memory is
    stored in the intent but retrieval only reads the city of a
    confirmation, which always comes from the utterance. *)
Theorem retrieval_ignores_the_memory (argsort : list Q -> list nat)
    (l2norm : list Q -> Q) (self1 self2 : LoopAIAgent) (q : string)
    (it1 it2 : Intent) :
  rag_engine self1 = rag_engine self2 ->
  _extract_intent (memory self1) q = Ok it1 ->
  _extract_intent (memory self2) q = Ok it2 ->
  retrieve argsort l2norm self1 q it1 = retrieve argsort l2norm self2 q it2.
Proof.
  intros Hrag H1 H2. unfold _extract_intent in H1, H2.
  destruct (given (option_map capitalize
                     (first_in ["bangalore"; "bengaluru"; "delhi"; "mumbai";
                                "chennai"; "hyderabad"; "pune"; "kolkata"]
                        (lower q)))) as [c|] eqn:Hc.
  - cbn [bind] in H1, H2. injection H1 as <-. injection H2 as <-.
    unfold retrieve. cbn [intent_type intent_hospital_name intent_city
                          intent_count]. now rewrite Hrag.
  - destruct (String.eqb (classify (lower q)) "followup") eqn:Htype.
    + apply String.eqb_eq in Htype.
      destruct (get_last_city (memory self1)) as [c1|e1]; [|discriminate].
      destruct (get_last_city (memory self2)) as [c2|e2]; [|discriminate].
      cbn [bind] in H1, H2. injection H1 as <-. injection H2 as <-.
      unfold retrieve. cbn [intent_type intent_hospital_name intent_city
                            intent_count]. rewrite Htype, Hrag. reflexivity.
    + cbn [bind] in H1, H2. injection H1 as <-. injection H2 as <-.
      unfold retrieve. cbn [intent_type intent_hospital_name intent_city
                            intent_count]. now rewrite Hrag.
Qed.

Lemma retrieval_ignores_the_memory_witness :
  retrieve argsort_insertion l2norm_floor (fresh_agent dummy_rag)
    "any other apollo ones"
    {| intent_type := "followup"; intent_city := None;
       intent_hospital_name := Some "apollo"; intent_count := 3 |}
  = retrieve argsort_insertion l2norm_floor
      {| rag_engine := dummy_rag;
         memory :=
           add_interaction distinct_order (new_memory 10)
             "find hospitals in delhi" "Fortis Hospital is in Delhi."
             [fortis_result];
         session_started := true;
         system_prompt := "You are Loop AI Health Assistant.";
         greeting_message := "Hello! I'm Loop AI Health Assistant." |}
      "any other apollo ones"
      {| intent_type := "followup"; intent_city := Some "Delhi";
         intent_hospital_name := Some "apollo"; intent_count := 3 |}.
Proof.
  apply (retrieval_ignores_the_memory argsort_insertion l2norm_floor
           (fresh_agent dummy_rag)
           {| rag_engine := dummy_rag;
              memory :=
                add_interaction distinct_order (new_memory 10)
                  "find hospitals in delhi" "Fortis Hospital is in Delhi."
                  [fortis_result];
              session_started := true;
              system_prompt := "You are Loop AI Health Assistant.";
              greeting_message := "Hello! I'm Loop AI Health Assistant." |}
           "any other apollo ones");
    reflexivity.
Defined.
